(** * Package initialisation of lsst.meas.extensions.photometryKron

    The package's [__init__.py] consists of five statements:
<<
    from .kronLib import *
    from .version import *

    import lsst.meas.base
    lsst.meas.base.wrapSimpleAlgorithm(KronFluxAlgorithm, name="ext_photometryKron_KronFlux",
        Control=KronFluxControl, executionOrder=2.0, shouldApCorr=True)
    del lsst # cleanup namespace
>>
    The development below embeds these statements as computations over an
    explicit process state (the table of loaded modules with their
    namespaces, the host framework's registry, and a log of the effects
    performed), in an exception monad, and proves the properties of the
    registration that the package performs when it is imported. *)

From Stdlib Require Import Floats Ascii String.
From stdpp Require Import gmap strings list fin_maps.

Local Open Scope string_scope.
Local Open Scope list_scope.

(** ** Python values *)

(** Only the kinds of value the module body touches are distinguished.
    Module objects are referred to by the name under which they are loaded;
    every other object (classes, functions) is opaque and identified by a
    qualified name. *)
Inductive value : Type :=
  | VNone
  | VBool (b : bool)
  | VFloat (x : float)
  | VStr (s : string)
  | VNames (l : list string)
  | VModule (name : string)
  | VObject (id : string).

Inductive exn : Type :=
  | ImportError (module : string)
  | NameError (name : string)
  | AttributeError (owner attr : string)
  | TypeError (what : string)
  | HostError (what : string).

Abbreviation namespace := (gmap string value).

(** ** The host registry *)

(** An entry of the host framework's registry, as the spec's data model
    gives it: name, algorithm type, control type, execution order and the
    aperture-correction flag. *)
Record entry : Type := Entry {
  e_name : string;
  e_algorithm : value;
  e_control : value;
  e_executionOrder : float;
  e_shouldApCorr : bool
}.

(** ** Effects and process state *)

Inductive event : Type :=
  | EvStarImport (module : string)
  | EvImport (module : string)
  | EvCall (callee : value) (args : list value) (kwargs : list (string * value))
  | EvDel (name : string).

Record process : Type := Process {
  sys_modules : gmap string namespace;
  registry : list entry;
  trace : list event
}.

(** Everything that lies outside the package: how a module that is not
    yet loaded is found and executed (yielding its namespace or an
    exception, and possibly touching the host registry), what calling an
    object does, the attributes of opaque objects, and the builtins.
    Executing a module is taken to produce that module's namespace and
    to act on the registry only: the further modules it may import, and
    what it may write into modules that are already loaded, are not
    represented. *)
Record environ : Type := Environ {
  load_module : string → list entry → (exn + namespace) * list entry;
  invoke : value → list value → list (string * value) → list entry
           → (exn + value) * list entry;
  object_attr : string → string → option value;
  builtins : namespace
}.

Inductive outcome (A : Type) : Type :=
  | Done (a : A) (p : process)
  | Raised (e : exn) (p : process).
Arguments Done {A} a p.
Arguments Raised {A} e p.

Definition M (A : Type) : Type := process → outcome A.

Definition ret {A} (a : A) : M A := λ p, Done a p.
Definition raise {A} (e : exn) : M A := λ p, Raised e p.
Definition bind {A B} (m : M A) (k : A → M B) : M B :=
  λ p, match m p with
       | Done a p' => k a p'
       | Raised e p' => Raised e p'
       end.

Notation "'let!' x ':=' m 'in' k" := (bind m (λ x, k))
  (at level 10, x name, m at level 100, k at level 200, only parsing).
Notation "m '>>' k" := (bind m (λ _, k))
  (at level 100, k at level 200, right associativity, only parsing).

Definition log (ev : event) : M unit :=
  λ p, Done tt (Process (sys_modules p) (registry p) (trace p ++ [ev])).

(** ** Names of the modules involved *)

(** The package's own name, from the path of [__init__.py]. *)
Definition this_module : string := "lsst.meas.extensions.photometryKron".
Definition kronLib : string := this_module +:+ ".kronLib".
Definition version : string := this_module +:+ ".version".

Definition globals (p : process) : namespace :=
  default ∅ (sys_modules p !! this_module).

Definition set_globals (g : namespace) (p : process) : process :=
  Process (<[this_module := g]> (sys_modules p)) (registry p) (trace p).

(** ** The import system *)

(** [rsplit_dot "a.b.c" = Some ("a.b", "c")]; [None] for a name without a dot. *)
Fixpoint rsplit_dot (s : string) : option (string * string) :=
  match s with
  | EmptyString => None
  | String c s' =>
      match rsplit_dot s' with
      | Some (pre, post) => Some (String c pre, post)
      | None => if Ascii.eqb c "."%char then Some (EmptyString, s') else None
      end
  end.

(** After a submodule is loaded, the import system binds it as an
    attribute of its parent package. *)
Definition bind_in_parent (name : string) (mods : gmap string namespace)
  : gmap string namespace :=
  match rsplit_dot name with
  | Some (parent, child) => alter (insert child (VModule name)) parent mods
  | None => mods
  end.

(** Importing one module by absolute name: a module found in
    [sys.modules] is not executed again. *)
Definition import_module (env : environ) (name : string) : M unit :=
  λ p, match sys_modules p !! name with
       | Some _ => Done tt p
       | None =>
           match load_module env name (registry p) with
           | (inl e, r) => Raised e (Process (sys_modules p) r (trace p))
           | (inr ns, r) =>
               Done tt (Process (bind_in_parent name (<[name := ns]> (sys_modules p)))
                                r (trace p))
           end
       end.

Definition is_public (n : string) : bool := negb (String.prefix "_" n).

(** The items of a string when it is indexed as a sequence: its
    characters, each a string of length one. *)
Fixpoint characters (s : string) : list string :=
  match s with
  | EmptyString => []
  | String c s' => String c EmptyString :: characters s'
  end.

(** The names a star-import takes from a module.  When the module
    defines [__all__], the interpreter indexes it as a sequence and takes
    every item: the elements of a list or tuple, the characters of a
    string; a value that is no sequence raises a TypeError.  Otherwise it
    takes every name of the module that does not start with an
    underscore. *)
Definition star_names (ns : namespace) : exn + list string :=
  match ns !! "__all__" with
  | Some (VNames l) => inr l
  | Some (VStr s) => inr (characters s)
  | Some _ => inl (TypeError "__all__")
  | None => inr (filter (λ n, is_public n = true) (map fst (map_to_list ns)))
  end.

Definition store_name (n : string) (v : value) : M unit :=
  λ p, Done tt (set_globals (<[n := v]> (globals p)) p).

Fixpoint bind_names (module : string) (ns : namespace) (names : list string) : M unit :=
  match names with
  | [] => ret tt
  | n :: rest =>
      match ns !! n with
      | Some v => store_name n v >> bind_names module ns rest
      | None => raise (AttributeError module n)
      end
  end.

(** [from <module> import *] *)
Definition import_star (env : environ) (module : string) : M unit :=
  import_module env module >>
  λ p, match sys_modules p !! module with
       | None => Raised (ImportError module) p
       | Some ns =>
           match star_names ns with
           | inl e => Raised e p
           | inr names => (bind_names module ns names >> log (EvStarImport module)) p
           end
       end.

(** [import a.b.c]: the packages are imported outermost first and the
    name of the outermost one is bound. *)
Definition import_lsst_meas_base (env : environ) : M unit :=
  import_module env "lsst" >>
  import_module env "lsst.meas" >>
  import_module env "lsst.meas.base" >>
  store_name "lsst" (VModule "lsst") >>
  log (EvImport "lsst.meas.base").

(** ** Expressions *)

Definition load_name (env : environ) (n : string) : M value :=
  λ p, match globals p !! n with
       | Some v => Done v p
       | None =>
           match builtins env !! n with
           | Some v => Done v p
           | None => Raised (NameError n) p
           end
       end.

Definition getattr (env : environ) (attr : string) (v : value) : M value :=
  λ p, match v with
       | VModule m =>
           match sys_modules p !! m ≫= (.!! attr) with
           | Some x => Done x p
           | None => Raised (AttributeError m attr) p
           end
       | VObject id =>
           match object_attr env id attr with
           | Some x => Done x p
           | None => Raised (AttributeError id attr) p
           end
       | _ => Raised (AttributeError "" attr) p
       end.

Definition call (env : environ) (f : value) (args : list value)
    (kwargs : list (string * value)) : M value :=
  log (EvCall f args kwargs) >>
  λ p, match invoke env f args kwargs (registry p) with
       | (inl e, r) => Raised e (Process (sys_modules p) r (trace p))
       | (inr v, r) => Done v (Process (sys_modules p) r (trace p))
       end.

Definition del_name (n : string) : M unit :=
  λ p, match globals p !! n with
       | Some _ => (log (EvDel n)) (set_globals (delete n (globals p)) p)
       | None => Raised (NameError n) p
       end.

(** ** The module body *)

Definition registration_name : string := "ext_photometryKron_KronFlux".

Definition registration_kwargs (control : value) : list (string * value) :=
  [ ("name", VStr registration_name);
    ("Control", control);
    ("executionOrder", VFloat 2.0%float);
    ("shouldApCorr", VBool true) ].

(** [lsst.meas.base.wrapSimpleAlgorithm] *)
Definition wrapSimpleAlgorithm (env : environ) : M value :=
  let! m0 := load_name env "lsst" in
  let! m1 := getattr env "meas" m0 in
  let! m2 := getattr env "base" m1 in
  getattr env "wrapSimpleAlgorithm" m2.

(** The call statement: the callee is evaluated first, then the
    positional argument, then the keyword arguments from left to right;
    the value returned by the call is dropped. *)
Definition register_KronFlux (env : environ) : M unit :=
  let! f := wrapSimpleAlgorithm env in
  let! alg := load_name env "KronFluxAlgorithm" in
  let! ctl := load_name env "KronFluxControl" in
  let! _ := call env f [alg] (registration_kwargs ctl) in
  ret tt.

Definition module_body (env : environ) : list (M unit) :=
  [ import_star env kronLib;
    import_star env version;
    import_lsst_meas_base env;
    register_KronFlux env;
    del_name "lsst" ].

Fixpoint exec_block (body : list (M unit)) : M unit :=
  match body with
  | [] => ret tt
  | s :: rest => s >> exec_block rest
  end.

(** ** Derived notions used in the statements *)

(** What a star-import of a module with namespace [ns] binds under the
    name [n], if anything. *)
Definition exported (ns : namespace) (n : string) : option value :=
  match star_names ns with
  | inr names => if decide (n ∈ names) then ns !! n else None
  | inl _ => None
  end.

Definition is_call (ev : event) : bool :=
  match ev with EvCall _ _ _ => true | _ => false end.

(** The calls among a list of events. *)
Definition calls (evs : list event) : list event :=
  filter (λ ev, is_call ev = true) evs.

Definition entries_named (n : string) (r : list entry) : list entry :=
  filter (λ e, e_name e = n) r.

Fixpoint assoc (k : string) (l : list (string * value)) : option value :=
  match l with
  | [] => None
  | (k', v) :: l' => if decide (k' = k) then Some v else assoc k l'
  end.

(** Modelled from the spec: the module [version] is generated when the
    package is built and is absent from src/.  The spec has its
    star-import bring "a version identifier" into the namespace; all that
    is used of this is that it exports neither of the two class names the
    call statement reads. *)
Definition version_as_specified (ns : namespace) : Prop :=
  exported ns "KronFluxAlgorithm" = None ∧ exported ns "KronFluxControl" = None.

(** Modelled from the spec: the host framework's registration code is
    not in src/.  The host's side of the registration, as the spec's data
    model states it: a registration that the host accepts records the
    tuple of name, algorithm type, control type, execution order and
    aperture-correction flag, the name is then held by that entry alone,
    and entries under other names are left as they were.  Whether a name
    already present is rejected or replaced is the host's choice. *)
Definition registration_contract (env : environ) : Prop :=
  ∀ f alg n ctl o b r res r',
    invoke env f [alg]
      [("name", VStr n); ("Control", ctl);
       ("executionOrder", VFloat o); ("shouldApCorr", VBool b)] r = (inr res, r') →
    entries_named n r' = [Entry n alg ctl o b] ∧
    ∀ n', n' ≠ n → entries_named n' r' = entries_named n' r.

(** ** A concrete installation *)

(** A host whose entry point [lsst.meas.base.wrapSimpleAlgorithm] rejects
    a name that is already registered, and one that replaces the entry. *)
Definition host_register (replace : bool) (f : value) (args : list value)
    (kwargs : list (string * value)) (r : list entry) : (exn + value) * list entry :=
  match f, args, kwargs with
  | VObject id, [alg], [(k1, VStr n); (k2, ctl); (k3, VFloat o); (k4, VBool b)] =>
      if decide (id = "lsst.meas.base.wrapSimpleAlgorithm" ∧ k1 = "name" ∧
                 k2 = "Control" ∧ k3 = "executionOrder" ∧ k4 = "shouldApCorr")
      then
        if replace then
          (inr (VObject "plugins"),
           filter (λ e, e_name e ≠ n) r ++ [Entry n alg ctl o b])
        else if decide (n ∈ map e_name r)
        then (inl (HostError "duplicate name"), r)
        else (inr (VObject "plugins"), r ++ [Entry n alg ctl o b])
      else (inl (TypeError "wrapSimpleAlgorithm"), r)
  | _, _, _ => (inl (TypeError "call"), r)
  end.

Definition kronLib_namespace : namespace :=
  {[ "KronFluxAlgorithm" := VObject "kronLib.KronFluxAlgorithm";
     "KronFluxControl" := VObject "kronLib.KronFluxControl";
     "_kronLib" := VModule "_kronLib";
     "lsst" := VModule "lsst" ]}.

Definition version_namespace : namespace :=
  {[ "__version__" := VStr "10.1";
     "__all__" := VNames ["__version__"] ]}.

Definition base_namespace : namespace :=
  {[ "wrapSimpleAlgorithm" := VObject "lsst.meas.base.wrapSimpleAlgorithm" ]}.

Definition installed (kron ver base : option namespace) (name : string)
    (r : list entry) : (exn + namespace) * list entry :=
  let found (o : option namespace) :=
    match o with
    | Some ns => (inr ns, r)
    | None => (inl (ImportError name), r)
    end in
  if decide (name = kronLib) then found kron
  else if decide (name = version) then found ver
  else if decide (name = "lsst.meas.base") then found base
  else (inl (ImportError name), r).

Definition reference_env : environ :=
  Environ (installed (Some kronLib_namespace) (Some version_namespace) (Some base_namespace))
          (host_register false) (λ _ _, None) ∅.

(** The process at the moment the package's body starts to run: its
    parent packages are loaded and the package itself is in the module
    table with a fresh namespace. *)
Definition reference_process : process :=
  Process {[ "lsst" := {[ "meas" := VModule "lsst.meas" ]};
             "lsst.meas" := {[ "extensions" := VModule "lsst.meas.extensions" ]};
             "lsst.meas.extensions" := ∅;
             this_module := {[ "__name__" := VStr this_module ]} ]}
          [ Entry "base_PsfFlux" (VObject "PsfFluxAlgorithm") (VObject "PsfFluxControl")
                  2.0%float true ]
          [].

(** The statements of the body that only import: the two star-imports
    and the import of the framework. *)
Definition import_statements (env : environ) : list (M unit) :=
  take 3 (module_body env).

(** One module being executed by the import system, seen from the registry. *)
Definition load_step (env : environ) (r r' : list entry) : Prop :=
  ∃ name ns, load_module env name r = (inr ns, r').

(** The same installation with the value returned by every call replaced. *)
Definition with_result (g : value → value) (env : environ) : environ :=
  Environ (load_module env)
          (λ f args kwargs r,
             match invoke env f args kwargs r with
             | (inl e, r') => (inl e, r')
             | (inr v, r') => (inr (g v), r')
             end)
          (object_attr env) (builtins env).

(** The body up to and including the call statement. *)
Definition through_registration (env : environ) : list (M unit) :=
  take 4 (module_body env).

(** The import system fails to load [name] from state [p]: the module is
    not loaded yet, and finding or executing it raises [e], leaving [p']. *)
Definition load_fails (env : environ) (name : string) (p : process)
    (e : exn) (p' : process) : Prop :=
  sys_modules p !! name = None ∧
  ∃ r, load_module env name (registry p) = (inl e, r) ∧
       p' = Process (sys_modules p) r (trace p).

(** The events of a complete run, in order. *)
Definition full_trace (f alg ctl : value) : list event :=
  [ EvStarImport kronLib; EvStarImport version; EvImport "lsst.meas.base";
    EvCall f [alg] (registration_kwargs ctl); EvDel "lsst" ].

(** The import of the framework fails: one of the three packages on the
    path [lsst.meas.base] fails to load, those before it having been
    imported. *)
Definition framework_load_fails (env : environ) (p : process)
    (e : exn) (p' : process) : Prop :=
  load_fails env "lsst" p e p' ∨
  ∃ p1, import_module env "lsst" p = Done tt p1 ∧
    (load_fails env "lsst.meas" p1 e p' ∨
     ∃ p2, import_module env "lsst.meas" p1 = Done tt p2 ∧
           load_fails env "lsst.meas.base" p2 e p').

(** Variations of the installation: the framework is missing; kronLib
    does not define the control class; the registration name is taken. *)
Definition no_framework_env : environ :=
  Environ (installed (Some kronLib_namespace) (Some version_namespace) None)
          (host_register false) (λ _ _, None) ∅.

Definition incomplete_kronLib_env : environ :=
  Environ (installed (Some (delete "KronFluxControl" kronLib_namespace))
                     (Some version_namespace) (Some base_namespace))
          (host_register false) (λ _ _, None) ∅.

Definition registered_process : process :=
  Process (sys_modules reference_process)
          [ Entry registration_name (VObject "other.Algorithm") (VObject "other.Control")
                  1.0%float false ]
          [].

Definition final_state {A} (o : outcome A) : process :=
  match o with
  | Done _ p => p
  | Raised _ p => p
  end.

Definition raised {A} (o : outcome A) : option exn :=
  match o with
  | Done _ _ => None
  | Raised e _ => Some e
  end.

(** The state a run from the reference process ends in. *)
Definition reference_final : process :=
  final_state (exec_block (module_body reference_env) reference_process).

(** Where the run without the framework stops: after the two star-imports. *)
Definition no_framework_stuck : process :=
  final_state (exec_block (take 2 (module_body no_framework_env)) reference_process).

(** ** Notions for the further properties *)

(** Two states that differ, outside the registry and the log, at most in
    what the package's namespace binds under the names of its two
    submodules. *)
Definition same_for_call (p q : process) : Prop :=
  (∀ k, k ≠ this_module → sys_modules p !! k = sys_modules q !! k) ∧
  (∀ n, n ≠ "kronLib" → n ≠ "version" → globals p !! n = globals q !! n).

(** Further variations of the installation: the framework lacks the
    entry point; kronLib lists a name in [__all__] that it does not
    define; kronLib defines neither class. *)
Definition no_entry_point_env : environ :=
  Environ (installed (Some kronLib_namespace) (Some version_namespace) (Some ∅))
          (host_register false) (λ _ _, None) ∅.

Definition bad_all_namespace : namespace :=
  insert "__all__" (VNames ["KronFluxAlgorithm"; "KronAperture"; "KronFluxControl"])
         kronLib_namespace.

Definition bad_all_env : environ :=
  Environ (installed (Some bad_all_namespace) (Some version_namespace) (Some base_namespace))
          (host_register false) (λ _ _, None) ∅.

Definition empty_kronLib_env : environ :=
  Environ (installed (Some ∅) (Some version_namespace) (Some base_namespace))
          (host_register false) (λ _ _, None) ∅.

Definition replacing_env : environ :=
  Environ (installed (Some kronLib_namespace) (Some version_namespace) (Some base_namespace))
          (host_register true) (λ _ _, None) ∅.


(** States reached on these installations. *)
Definition replacing_final : process :=
  final_state (exec_block (module_body replacing_env) reference_process).

Definition replacing_final_again : process :=
  final_state (exec_block (module_body replacing_env) replacing_final).


Definition registered_imported : process :=
  final_state (exec_block (import_statements reference_env) registered_process).

Definition no_entry_point_imported : process :=
  final_state (exec_block (import_statements no_entry_point_env) reference_process).

Definition empty_kronLib_imported : process :=
  final_state (exec_block (import_statements empty_kronLib_env) reference_process).

Definition bad_all_loaded : process :=
  final_state (import_module bad_all_env kronLib reference_process).

(** * Proofs *)

(** ** The monad *)

Lemma bind_Done {A B} (m : M A) (k : A → M B) p b p' :
  bind m k p = Done b p' ↔ ∃ a p1, m p = Done a p1 ∧ k a p1 = Done b p'.
Proof.
  unfold bind. split.
  - destruct (m p) as [a p1|e p1]; [eauto | discriminate].
  - intros (a & p1 & -> & Hk). exact Hk.
Qed.

Lemma bind_Raised {A B} (m : M A) (k : A → M B) p e p' :
  bind m k p = Raised e p' ↔
  m p = Raised e p' ∨ ∃ a p1, m p = Done a p1 ∧ k a p1 = Raised e p'.
Proof.
  unfold bind. split.
  - destruct (m p) as [a p1|e1 p1]; [eauto | intros [= -> ->]; auto].
  - intros [-> | (a & p1 & -> & Hk)]; [reflexivity | exact Hk].
Qed.

Lemma exec_block_app pre post w w1 :
  exec_block pre w = Done tt w1 →
  exec_block (pre ++ post) w = exec_block post w1.
Proof.
  revert w. induction pre as [|s pre IH]; intros w; simpl.
  - intros [= ->]. reflexivity.
  - intros H. apply bind_Done in H as ([] & p1 & Hs & Hrest).
    unfold bind at 1. rewrite Hs. by apply IH.
Qed.

Lemma exec_block_Done_app pre post w w' :
  exec_block (pre ++ post) w = Done tt w' →
  ∃ w1, exec_block pre w = Done tt w1 ∧ exec_block post w1 = Done tt w'.
Proof.
  revert w. induction pre as [|s pre IH]; intros w; simpl.
  - eauto.
  - intros H. apply bind_Done in H as ([] & p1 & Hs & Hrest).
    destruct (IH _ Hrest) as (w1 & Hpre & Hpost).
    exists w1. split; [|done]. apply bind_Done. eauto.
Qed.

(** A completed run of the body went through its five statements in turn. *)
Lemma module_body_Done env w w' :
  exec_block (module_body env) w = Done tt w' ↔
  ∃ w1 w2 w3 w4,
    import_star env kronLib w = Done tt w1 ∧
    import_star env version w1 = Done tt w2 ∧
    import_lsst_meas_base env w2 = Done tt w3 ∧
    register_KronFlux env w3 = Done tt w4 ∧
    del_name "lsst" w4 = Done tt w'.
Proof.
  unfold module_body; simpl. split.
  - intros H.
    apply bind_Done in H as ([] & w1 & H1 & H).
    apply bind_Done in H as ([] & w2 & H2 & H).
    apply bind_Done in H as ([] & w3 & H3 & H).
    apply bind_Done in H as ([] & w4 & H4 & H).
    apply bind_Done in H as ([] & w5 & H5 & [= <-]).
    by exists w1, w2, w3, w4.
  - intros (w1 & w2 & w3 & w4 & H1 & H2 & H3 & H4 & H5).
    repeat (apply bind_Done; eexists tt, _; split; [eassumption|]).
    reflexivity.
Qed.

(** ** Module names *)

Ltac names_differ :=
  let H := fresh in
  intros H; apply (bool_decide_eq_true_2 _) in H; vm_compute in H; discriminate H.

Lemma rsplit_kronLib : rsplit_dot kronLib = Some (this_module, "kronLib").
Proof. reflexivity. Qed.
Lemma rsplit_version : rsplit_dot version = Some (this_module, "version").
Proof. reflexivity. Qed.

(** ** The import system *)

Lemma bind_in_parent_lookup_ne name mods k :
  (∀ child, rsplit_dot name ≠ Some (k, child)) →
  bind_in_parent name mods !! k = mods !! k.
Proof.
  unfold bind_in_parent. intros Hk.
  destruct (rsplit_dot name) as [[parent child]|]; [|done].
  apply lookup_alter_ne. intros ->. by apply (Hk child).
Qed.

Lemma bind_in_parent_lookup name parent child mods :
  rsplit_dot name = Some (parent, child) →
  bind_in_parent name mods !! parent = insert child (VModule name) <$> mods !! parent.
Proof.
  unfold bind_in_parent. intros ->. apply lookup_alter_eq.
Qed.

Lemma bind_in_parent_is_Some name mods k :
  is_Some (bind_in_parent name mods !! k) ↔ is_Some (mods !! k).
Proof.
  unfold bind_in_parent. destruct (rsplit_dot name) as [[parent child]|]; [|done].
  destruct (decide (parent = k)) as [->|Hne].
  - rewrite lookup_alter_eq. by rewrite fmap_is_Some.
  - by rewrite lookup_alter_ne.
Qed.

(** Importing a module either finds it loaded and changes nothing, or
    executes it and records it in the module table. *)
Lemma import_module_Done env name p p' :
  import_module env name p = Done tt p' →
  trace p' = trace p ∧
  ((is_Some (sys_modules p !! name) ∧ p' = p) ∨
   (sys_modules p !! name = None ∧
    ∃ ns, load_module env name (registry p) = (inr ns, registry p') ∧
          sys_modules p' = bind_in_parent name (<[name := ns]> (sys_modules p)))).
Proof.
  unfold import_module. destruct (sys_modules p !! name) as [ns|] eqn:Hl.
  - intros [= <-]. eauto.
  - destruct (load_module env name (registry p)) as [[e|ns] r] eqn:Hload; [done|].
    intros [= <-]. simpl. split; [done|]. right. eauto.
Qed.

Lemma import_module_Raised env name p e p' :
  import_module env name p = Raised e p' ↔
  sys_modules p !! name = None ∧
  ∃ r, load_module env name (registry p) = (inl e, r) ∧
       p' = Process (sys_modules p) r (trace p).
Proof.
  unfold import_module. destruct (sys_modules p !! name) as [ns|] eqn:Hl.
  - split; [done | by intros [? _]].
  - destruct (load_module env name (registry p)) as [[e1|ns] r] eqn:Hload.
    + split.
      * intros [= -> <-]. eauto.
      * intros (_ & r' & [= -> ->] & ->). done.
    + split; [done|]. by intros (_ & r' & ? & _).
Qed.

Lemma import_module_loaded env name p p' :
  import_module env name p = Done tt p' → is_Some (sys_modules p' !! name).
Proof.
  intros H. apply import_module_Done in H as (_ & [[? ->]|(_ & ns & _ & ->)]); [done|].
  apply bind_in_parent_is_Some. rewrite lookup_insert_eq. eauto.
Qed.

Lemma import_module_keeps env name p p' k :
  import_module env name p = Done tt p' →
  is_Some (sys_modules p !! k) → is_Some (sys_modules p' !! k).
Proof.
  intros H Hk. apply import_module_Done in H as (_ & [[? ->]|(Hnone & ns & _ & ->)]); [done|].
  apply bind_in_parent_is_Some.
  destruct (decide (name = k)) as [->|Hne].
  - rewrite lookup_insert_eq. eauto.
  - by rewrite lookup_insert_ne.
Qed.

(** A module other than the one imported and other than its parent is
    left alone. *)
Lemma import_module_frame env name p p' k :
  import_module env name p = Done tt p' →
  k ≠ name → (∀ child, rsplit_dot name ≠ Some (k, child)) →
  sys_modules p' !! k = sys_modules p !! k.
Proof.
  intros H Hk Hpar.
  apply import_module_Done in H as (_ & [[? ->]|(_ & ns & _ & ->)]); [done|].
  rewrite bind_in_parent_lookup_ne by done. by rewrite lookup_insert_ne.
Qed.

(** A module that is already loaded is not loaded again. *)
Lemma import_module_stable env name p p' k ns :
  import_module env name p = Done tt p' →
  sys_modules p !! k = Some ns →
  (∀ child, rsplit_dot name ≠ Some (k, child)) →
  sys_modules p' !! k = Some ns.
Proof.
  intros H Hk Hpar.
  apply import_module_Done in H as (_ & [[? ->]|(Hnone & ns' & _ & ->)]); [done|].
  rewrite bind_in_parent_lookup_ne by done.
  rewrite lookup_insert_ne; [done|]. intros ->. congruence.
Qed.

(** ** The package's own namespace *)

Lemma globals_set_globals g p : globals (set_globals g p) = g.
Proof. unfold globals, set_globals; simpl. by rewrite lookup_insert_eq. Qed.

Lemma globals_same_modules p r t :
  globals (Process (sys_modules p) r t) = globals p.
Proof. reflexivity. Qed.

Lemma set_globals_frame g p k :
  k ≠ this_module → sys_modules (set_globals g p) !! k = sys_modules p !! k.
Proof. intros Hk. unfold set_globals; simpl. by rewrite lookup_insert_ne. Qed.

Lemma import_module_child_globals env name child p p' n :
  rsplit_dot name = Some (this_module, child) → name ≠ this_module →
  import_module env name p = Done tt p' →
  n ≠ child → globals p' !! n = globals p !! n.
Proof.
  intros Hsplit Hne H Hn.
  apply import_module_Done in H as (_ & [[? ->]|(_ & ns & _ & Hmods)]); [done|].
  unfold globals. rewrite Hmods, (bind_in_parent_lookup _ _ _ _ Hsplit).
  rewrite lookup_insert_ne by done.
  destruct (sys_modules p !! this_module) as [g|]; simpl; [|done].
  by rewrite lookup_insert_ne.
Qed.

Lemma import_module_foreign_globals env name p p' :
  name ≠ this_module → (∀ child, rsplit_dot name ≠ Some (this_module, child)) →
  import_module env name p = Done tt p' →
  globals p' = globals p.
Proof.
  intros Hne Hpar H. unfold globals.
  by rewrite (import_module_frame _ _ _ _ this_module H).
Qed.

Lemma bind_names_Done module ns names p p' :
  bind_names module ns names p = Done tt p' →
  trace p' = trace p ∧ registry p' = registry p ∧
  (∀ k, k ≠ this_module → sys_modules p' !! k = sys_modules p !! k) ∧
  (∀ n, n ∈ names → is_Some (ns !! n) ∧ globals p' !! n = ns !! n) ∧
  (∀ n, n ∉ names → globals p' !! n = globals p !! n).
Proof.
  revert p. induction names as [|a rest IH]; intros p; simpl.
  - intros [= <-]. do 3 (split; [done|]). split; [|done].
    intros n Hn. by apply elem_of_nil in Hn.
  - destruct (ns !! a) as [v|] eqn:Ha; [|done].
    intros H. apply bind_Done in H as ([] & p1 & [= <-] & H).
    destruct (IH _ H) as (Ht & Hr & Hm & Hin & Hout).
    split; [done|]. split; [done|]. split; [|split].
    + intros k Hk. rewrite Hm by done. by apply set_globals_frame.
    + intros n Hn. destruct (decide (n ∈ rest)) as [Hrest|Hrest]; [by apply Hin|].
      apply elem_of_cons in Hn as [->|?]; [|done].
      rewrite Hout by done. rewrite globals_set_globals, lookup_insert_eq.
      rewrite Ha. eauto.
    + intros n Hn. apply not_elem_of_cons in Hn as [Hna Hrest].
      rewrite Hout by done. rewrite globals_set_globals. by rewrite lookup_insert_ne.
Qed.

(** What a completed star-import of a submodule of the package leaves
    behind. *)
Lemma import_star_Done env name child p p' :
  rsplit_dot name = Some (this_module, child) → name ≠ this_module →
  import_star env name p = Done tt p' →
  ∃ ns,
    sys_modules p' !! name = Some ns ∧
    (∀ ns0, sys_modules p !! name = Some ns0 → ns0 = ns) ∧
    trace p' = trace p ++ [EvStarImport name] ∧
    (∀ n v, exported ns n = Some v → globals p' !! n = Some v) ∧
    (∀ n, exported ns n = None → n ≠ child → globals p' !! n = globals p !! n) ∧
    (∀ k, k ≠ this_module → k ≠ name → sys_modules p' !! k = sys_modules p !! k).
Proof.
  intros Hsplit Hne H. unfold import_star in H.
  apply bind_Done in H as ([] & p1 & Himp & H).
  destruct (sys_modules p1 !! name) as [ns|] eqn:Hns; [|done].
  destruct (star_names ns) as [e|names] eqn:Hnames; [done|].
  apply bind_Done in H as ([] & p2 & Hbind & [= <-]).
  rewrite globals_same_modules. cbn [sys_modules trace registry].
  destruct (bind_names_Done _ _ _ _ _ Hbind) as (Ht & Hr & Hm & Hin & Hout).
  pose proof (import_module_Done _ _ _ _ Himp) as [Ht1 _].
  exists ns. split; [by rewrite Hm|]. split; [|split; [by rewrite Ht, Ht1|split; [|split]]].
  - intros ns0 H0.
    assert (sys_modules p1 !! name = Some ns0) as H1; [|congruence].
    apply (import_module_stable _ _ _ _ _ _ Himp H0).
    intros c. rewrite Hsplit. intros [= ? _]. done.
  - intros n v. unfold exported. rewrite Hnames.
    destruct (decide (n ∈ names)) as [Hn|]; [|done].
    intros Hv. destruct (Hin _ Hn) as [_ ->]. done.
  - intros n. unfold exported. rewrite Hnames.
    destruct (decide (n ∈ names)) as [Hn|Hn].
    + intros Hv. destruct (Hin _ Hn) as [[v Hv'] _]. congruence.
    + intros _ Hc. rewrite Hout by done.
      by apply (import_module_child_globals _ _ _ _ _ _ Hsplit Hne Himp).
  - intros k Hk Hkn. rewrite Hm by done.
    apply (import_module_frame _ _ _ _ _ Himp); [done|].
    intros c. rewrite Hsplit. intros [= ? _]. done.
Qed.

Lemma import_star_registry env name p p' :
  import_star env name p = Done tt p' →
  registry p' = registry p ∨
  ∃ ns, sys_modules p !! name = None ∧
        load_module env name (registry p) = (inr ns, registry p').
Proof.
  intros H. unfold import_star in H.
  apply bind_Done in H as ([] & p1 & Himp & H).
  destruct (sys_modules p1 !! name) as [ns|] eqn:Hns; [|done].
  destruct (star_names ns) as [e|names] eqn:Hnames; [done|].
  apply bind_Done in H as ([] & p2 & Hbind & [= <-]). simpl.
  destruct (bind_names_Done _ _ _ _ _ Hbind) as (_ & -> & _).
  apply import_module_Done in Himp as (_ & [[? ->]|(Hnone & ns' & Hl & _)]); eauto.
Qed.

(** [import lsst.meas.base] *)
Lemma import_lsst_meas_base_Done env p p' :
  import_lsst_meas_base env p = Done tt p' →
  trace p' = trace p ++ [EvImport "lsst.meas.base"] ∧
  globals p' = <["lsst" := VModule "lsst"]> (globals p) ∧
  (is_Some (sys_modules p' !! "lsst") ∧ is_Some (sys_modules p' !! "lsst.meas") ∧
   is_Some (sys_modules p' !! "lsst.meas.base")) ∧
  (∀ k ns, k ≠ this_module → k ≠ "lsst" → k ≠ "lsst.meas" →
           sys_modules p !! k = Some ns → sys_modules p' !! k = Some ns).
Proof.
  unfold import_lsst_meas_base. intros H.
  apply bind_Done in H as ([] & p1 & H1 & H).
  apply bind_Done in H as ([] & p2 & H2 & H).
  apply bind_Done in H as ([] & p3 & H3 & H).
  apply bind_Done in H as ([] & p4 & [= <-] & [= <-]). simpl.
  pose proof (import_module_Done _ _ _ _ H1) as [Ht1 _].
  pose proof (import_module_Done _ _ _ _ H2) as [Ht2 _].
  pose proof (import_module_Done _ _ _ _ H3) as [Ht3 _].
  split; [by rewrite Ht3, Ht2, Ht1|]. split; [|split].
  - change (globals (set_globals (<["lsst" := VModule "lsst"]> (globals p3)) p3)
            = <["lsst" := VModule "lsst"]> (globals p)).
    rewrite globals_set_globals. f_equal.
    transitivity (globals p2); [|transitivity (globals p1)];
      (eapply import_module_foreign_globals; [| |eassumption];
       [names_differ | intros c; vm_compute; discriminate]).
  - rewrite !lookup_insert_ne by names_differ.
    pose proof (import_module_loaded _ _ _ _ H1) as L1.
    pose proof (import_module_loaded _ _ _ _ H2) as L2.
    pose proof (import_module_loaded _ _ _ _ H3) as L3.
    pose proof (import_module_keeps _ _ _ _ _ H2 L1) as L1'.
    pose proof (import_module_keeps _ _ _ _ _ H3 L1') as L1''.
    pose proof (import_module_keeps _ _ _ _ _ H3 L2) as L2'.
    done.
  - intros k ns Hk Hl Hm Hin.
    rewrite lookup_insert_ne by done.
    apply (import_module_stable _ _ _ _ _ _ H3).
    + apply (import_module_stable _ _ _ _ _ _ H2).
      * apply (import_module_stable _ _ _ _ _ _ H1); [done|].
        intros c; vm_compute; discriminate.
      * intros c. vm_compute. intros [= <-]. done.
    + intros c. vm_compute. intros [= <-]. done.
Qed.

(** ** Expressions and the last two statements *)

Lemma load_name_Done env n p v p' :
  load_name env n p = Done v p' →
  p' = p ∧
  (globals p !! n = Some v ∨ (globals p !! n = None ∧ builtins env !! n = Some v)).
Proof.
  unfold load_name. destruct (globals p !! n) as [v0|].
  - intros [= <- <-]. auto.
  - destruct (builtins env !! n) as [v0|]; [|done]. intros [= <- <-]. auto.
Qed.

Lemma load_name_unbound env n p :
  globals p !! n = None → builtins env !! n = None →
  load_name env n p = Raised (NameError n) p.
Proof. unfold load_name. by intros -> ->. Qed.

Lemma getattr_Done env attr v p x p' :
  getattr env attr v p = Done x p' → p' = p.
Proof.
  unfold getattr. destruct v; try done.
  - destruct (sys_modules p !! name ≫= _); [|done]. by intros [= _ <-].
  - destruct (object_attr env id attr); [|done]. by intros [= _ <-].
Qed.

Lemma wrapSimpleAlgorithm_Done env p f p' :
  wrapSimpleAlgorithm env p = Done f p' → p' = p.
Proof.
  unfold wrapSimpleAlgorithm. intros H.
  apply bind_Done in H as (m0 & p0 & H0 & H). apply load_name_Done in H0 as [-> _].
  apply bind_Done in H as (m1 & p1 & H1 & H). apply getattr_Done in H1 as ->.
  apply bind_Done in H as (m2 & p2 & H2 & H). apply getattr_Done in H2 as ->.
  by apply getattr_Done in H.
Qed.

(** The call statement completes exactly when callee and arguments
    evaluate and the host accepts the call; it changes the registry to
    what the host returns and nothing else. *)
Lemma register_KronFlux_Done env p p' :
  register_KronFlux env p = Done tt p' ↔
  ∃ f alg ctl res,
    wrapSimpleAlgorithm env p = Done f p ∧
    load_name env "KronFluxAlgorithm" p = Done alg p ∧
    load_name env "KronFluxControl" p = Done ctl p ∧
    invoke env f [alg] (registration_kwargs ctl) (registry p) = (inr res, registry p') ∧
    sys_modules p' = sys_modules p ∧
    trace p' = trace p ++ [EvCall f [alg] (registration_kwargs ctl)].
Proof.
  unfold register_KronFlux. split.
  - intros H.
    apply bind_Done in H as (f & p0 & Hf & H).
    pose proof (wrapSimpleAlgorithm_Done _ _ _ _ Hf) as ->.
    apply bind_Done in H as (alg & p1 & Ha & H).
    pose proof (load_name_Done _ _ _ _ _ Ha) as [-> _].
    apply bind_Done in H as (ctl & p2 & Hc & H).
    pose proof (load_name_Done _ _ _ _ _ Hc) as [-> _].
    apply bind_Done in H as (res & p3 & Hcall & [= <-]).
    unfold call in Hcall. apply bind_Done in Hcall as ([] & p4 & [= <-] & Hcall).
    cbn [registry sys_modules trace] in Hcall.
    destruct (invoke env f [alg] (registration_kwargs ctl) (registry p))
      as [[e|res'] r] eqn:Hinv; [done|].
    injection Hcall as <- <-. exists f, alg, ctl, res'. by repeat split.
  - intros (f & alg & ctl & res & Hf & Ha & Hc & Hinv & Hm & Ht).
    apply bind_Done. exists f, p. split; [done|].
    apply bind_Done. exists alg, p. split; [done|].
    apply bind_Done. exists ctl, p. split; [done|].
    apply bind_Done. exists res, p'. split; [|done].
    unfold call. apply bind_Done. eexists tt, _. split; [reflexivity|].
    cbn [registry sys_modules trace]. rewrite Hinv.
    destruct p' as [m' r' t']. simpl in *. by rewrite Hm, Ht.
Qed.

Lemma del_name_Done n p p' :
  del_name n p = Done tt p' ↔
  is_Some (globals p !! n) ∧
  p' = Process (<[this_module := delete n (globals p)]> (sys_modules p))
               (registry p) (trace p ++ [EvDel n]).
Proof.
  unfold del_name. destruct (globals p !! n) as [v|].
  - unfold log, set_globals; simpl. split.
    + intros [= <-]. eauto.
    + by intros [_ ->].
  - split; [done|]. by intros [[? ?] _].
Qed.

(** ** The concrete host *)

Lemma entries_named_app n r1 r2 :
  entries_named n (r1 ++ r2) = entries_named n r1 ++ entries_named n r2.
Proof. apply filter_app. Qed.

Lemma entries_named_absent n r :
  n ∉ map e_name r → entries_named n r = [].
Proof.
  induction r as [|e r IH]; [done|]. simpl. intros Hn.
  apply not_elem_of_cons in Hn as [Hne Hr].
  unfold entries_named. rewrite filter_cons_False by done. by apply IH.
Qed.

Lemma entries_named_removed n r :
  entries_named n (filter (λ e, e_name e ≠ n) r) = [].
Proof.
  induction r as [|e r IH]; [done|].
  destruct (decide (e_name e = n)) as [He|He].
  - rewrite filter_cons_False by (intros ?; done). exact IH.
  - rewrite filter_cons_True by done.
    unfold entries_named. rewrite filter_cons_False by done. exact IH.
Qed.

Lemma entries_named_kept n n' r :
  n' ≠ n → entries_named n' (filter (λ e, e_name e ≠ n) r) = entries_named n' r.
Proof.
  intros Hne. induction r as [|e r IH]; [done|].
  unfold entries_named in *.
  destruct (decide (e_name e = n)) as [He|He].
  - rewrite (filter_cons_False (λ e, e_name e ≠ n)) by (intros ?; done).
    rewrite (filter_cons_False (λ e, e_name e = n')) by congruence. exact IH.
  - rewrite (filter_cons_True (λ e, e_name e ≠ n)) by done.
    destruct (decide (e_name e = n')) as [He'|He'].
    + rewrite !(filter_cons_True (λ e, e_name e = n')) by done. by rewrite IH.
    + rewrite !(filter_cons_False (λ e, e_name e = n')) by done. exact IH.
Qed.

Lemma host_register_contract replace load attrs bi :
  registration_contract (Environ load (host_register replace) attrs bi).
Proof.
  intros f alg n ctl o b r res r'. cbn [invoke]. unfold host_register.
  destruct f; try done.
  destruct (decide _) as [_|]; [|done].
  destruct replace.
  - intros [= _ <-]. split.
    + rewrite entries_named_app, entries_named_removed. simpl.
      unfold entries_named. by rewrite filter_cons_True, filter_nil.
    + intros n' Hn'. rewrite entries_named_app, entries_named_kept by done.
      unfold entries_named at 2. rewrite filter_cons_False by (simpl; congruence).
      by rewrite filter_nil, app_nil_r.
  - destruct (decide (n ∈ map e_name r)) as [|Hn]; [done|].
    intros [= _ <-]. split.
    + rewrite entries_named_app, entries_named_absent by done. simpl.
      unfold entries_named. by rewrite filter_cons_True, filter_nil.
    + intros n' Hn'. rewrite entries_named_app.
      unfold entries_named at 2. rewrite filter_cons_False by (simpl; congruence).
      by rewrite filter_nil, app_nil_r.
Qed.

(** ** The run as a whole *)

Lemma import_module_loads env name p p' :
  import_module env name p = Done tt p' →
  rtc (load_step env) (registry p) (registry p').
Proof.
  intros H. apply import_module_Done in H as (_ & [[? ->]|(_ & ns & Hl & _)]); [done|].
  apply rtc_once. by exists name, ns.
Qed.

Lemma import_star_loads env name p p' :
  import_star env name p = Done tt p' →
  rtc (load_step env) (registry p) (registry p').
Proof.
  intros H. apply import_star_registry in H as [->|(ns & _ & Hl)]; [done|].
  apply rtc_once. by exists name, ns.
Qed.

Lemma import_lsst_meas_base_loads env p p' :
  import_lsst_meas_base env p = Done tt p' →
  rtc (load_step env) (registry p) (registry p').
Proof.
  unfold import_lsst_meas_base. intros H.
  apply bind_Done in H as ([] & p1 & H1 & H).
  apply bind_Done in H as ([] & p2 & H2 & H).
  apply bind_Done in H as ([] & p3 & H3 & H).
  apply bind_Done in H as ([] & p4 & [= <-] & [= <-]). simpl.
  etrans; [by eapply import_module_loads|].
  etrans; [by eapply import_module_loads|]. by eapply import_module_loads.
Qed.

Lemma import_statements_Done env w w3 :
  exec_block (import_statements env) w = Done tt w3 ↔
  ∃ w1 w2,
    import_star env kronLib w = Done tt w1 ∧
    import_star env version w1 = Done tt w2 ∧
    import_lsst_meas_base env w2 = Done tt w3.
Proof.
  unfold import_statements, module_body; simpl. split.
  - intros H.
    apply bind_Done in H as ([] & w1 & H1 & H).
    apply bind_Done in H as ([] & w2 & H2 & H).
    apply bind_Done in H as ([] & w3' & H3 & [= <-]).
    by exists w1, w2.
  - intros (w1 & w2 & H1 & H2 & H3).
    repeat (apply bind_Done; eexists tt, _; split; [eassumption|]).
    reflexivity.
Qed.

Lemma module_body_split env :
  module_body env = import_statements env ++ [register_KronFlux env; del_name "lsst"].
Proof. reflexivity. Qed.

(** The state in which the call statement starts. *)
Lemma import_statements_summary env w w3 :
  exec_block (import_statements env) w = Done tt w3 →
  ∃ nsK nsV,
    sys_modules w3 !! kronLib = Some nsK ∧
    sys_modules w3 !! version = Some nsV ∧
    (is_Some (sys_modules w3 !! "lsst") ∧ is_Some (sys_modules w3 !! "lsst.meas") ∧
     is_Some (sys_modules w3 !! "lsst.meas.base")) ∧
    trace w3 = trace w ++ [EvStarImport kronLib; EvStarImport version;
                           EvImport "lsst.meas.base"] ∧
    globals w3 !! "lsst" = Some (VModule "lsst") ∧
    (∀ n, n ≠ "lsst" → n ≠ "kronLib" → n ≠ "version" →
          globals w3 !! n =
            match exported nsV n with
            | Some v => Some v
            | None => match exported nsK n with
                      | Some v => Some v
                      | None => globals w !! n
                      end
            end) ∧
    rtc (load_step env) (registry w) (registry w3).
Proof.
  intros H. apply import_statements_Done in H as (w1 & w2 & H1 & H2 & H3).
  assert (kronLib ≠ this_module) as HK by names_differ.
  assert (version ≠ this_module) as HV by names_differ.
  destruct (import_star_Done _ _ _ _ _ rsplit_kronLib HK H1)
    as (nsK & HnsK & _ & Ht1 & HinK & HoutK & _).
  destruct (import_star_Done _ _ _ _ _ rsplit_version HV H2)
    as (nsV & HnsV & _ & Ht2 & HinV & HoutV & HframeV).
  destruct (import_lsst_meas_base_Done _ _ _ H3) as (Ht3 & Hg3 & Hbase & Hstable).
  exists nsK, nsV. split; [|split; [|split; [done|repeat split]]].
  - apply Hstable; [done | names_differ | names_differ |].
    rewrite HframeV; [done | done | names_differ].
  - apply Hstable; [done | names_differ | names_differ | done].
  - rewrite Ht3, Ht2, Ht1. by rewrite <- !app_assoc.
  - rewrite Hg3. apply lookup_insert_eq.
  - intros n Hl Hk Hv. rewrite Hg3, lookup_insert_ne by done.
    destruct (exported nsV n) as [v|] eqn:HeV; [by apply HinV|].
    rewrite HoutV by done.
    destruct (exported nsK n) as [v|] eqn:HeK; [by apply HinK|].
    by apply HoutK.
  - etrans; [by eapply import_star_loads|].
    etrans; [by eapply import_star_loads|]. by eapply import_lsst_meas_base_loads.
Qed.

(** A completed run: the imports, then one accepted call, then the
    removal of [lsst] from the namespace. *)
Lemma module_body_summary env w w' :
  exec_block (module_body env) w = Done tt w' ↔
  ∃ w3 f alg ctl res,
    exec_block (import_statements env) w = Done tt w3 ∧
    wrapSimpleAlgorithm env w3 = Done f w3 ∧
    load_name env "KronFluxAlgorithm" w3 = Done alg w3 ∧
    load_name env "KronFluxControl" w3 = Done ctl w3 ∧
    invoke env f [alg] (registration_kwargs ctl) (registry w3) = (inr res, registry w') ∧
    is_Some (globals w3 !! "lsst") ∧
    sys_modules w' = <[this_module := delete "lsst" (globals w3)]> (sys_modules w3) ∧
    trace w' = trace w3 ++ [EvCall f [alg] (registration_kwargs ctl); EvDel "lsst"].
Proof.
  rewrite module_body_Done. split.
  - intros (w1 & w2 & w3 & w4 & H1 & H2 & H3 & H4 & H5).
    apply register_KronFlux_Done in H4
      as (f & alg & ctl & res & Hf & Ha & Hc & Hinv & Hm & Ht).
    apply del_name_Done in H5 as [Hl ->]. cbn [registry sys_modules trace] in *.
    exists w3, f, alg, ctl, res.
    split; [apply import_statements_Done; eauto|].
    unfold globals in *. rewrite Hm in *. rewrite Ht, <- app_assoc.
    by repeat split.
  - intros (w3 & f & alg & ctl & res & Himp & Hf & Ha & Hc & Hinv & Hl & Hm & Ht).
    apply import_statements_Done in Himp as (w1 & w2 & H1 & H2 & H3).
    exists w1, w2, w3,
      (Process (sys_modules w3) (registry w')
               (trace w3 ++ [EvCall f [alg] (registration_kwargs ctl)])).
    repeat (split; [done|]). split.
    + apply register_KronFlux_Done. exists f, alg, ctl, res. by repeat split.
    + apply del_name_Done. rewrite globals_same_modules. split; [done|].
      destruct w' as [m' r' t']; simpl in *. rewrite Hm, Ht, <- app_assoc. done.
Qed.

Lemma calls_of_run f alg ctl :
  calls (full_trace f alg ctl) = [EvCall f [alg] (registration_kwargs ctl)].
Proof. reflexivity. Qed.

(** The events a completed run appends to the log. *)
Lemma module_body_trace env w w' :
  exec_block (module_body env) w = Done tt w' →
  ∃ f alg ctl, trace w' = trace w ++ full_trace f alg ctl.
Proof.
  intros H. apply module_body_summary in H
    as (w3 & f & alg & ctl & res & Himp & _ & _ & _ & _ & _ & _ & Ht).
  apply import_statements_summary in Himp as (_ & _ & _ & _ & _ & Ht3 & _).
  exists f, alg, ctl. rewrite Ht, Ht3. by rewrite <- app_assoc.
Qed.

Lemma entries_named_elem n r e :
  e ∈ r → e_name e = n → e ∈ entries_named n r.
Proof. intros He Hn. apply list_elem_of_filter. by split. Qed.

Lemma final_modules_frame w3 w' g k :
  sys_modules w' = <[this_module := g]> (sys_modules w3) →
  k ≠ this_module → sys_modules w' !! k = sys_modules w3 !! k.
Proof. intros -> Hk. by rewrite lookup_insert_ne. Qed.

Lemma final_globals w3 w' g :
  sys_modules w' = <[this_module := g]> (sys_modules w3) → globals w' = g.
Proof. intros Hm. unfold globals. by rewrite Hm, lookup_insert_eq. Qed.

Lemma through_registration_Done env w w4 :
  exec_block (through_registration env) w = Done tt w4 ↔
  ∃ w3, exec_block (import_statements env) w = Done tt w3 ∧
        register_KronFlux env w3 = Done tt w4.
Proof.
  change (through_registration env)
    with (import_statements env ++ [register_KronFlux env]). split.
  - intros H. apply exec_block_Done_app in H as (w3 & Himp & H).
    simpl in H. apply bind_Done in H as ([] & w4' & H4 & [= <-]). eauto.
  - intros (w3 & Himp & H4). rewrite (exec_block_app _ _ _ _ Himp).
    simpl. apply bind_Done. by exists tt, w4.
Qed.

(** The callee of the call statement is the attribute
    [wrapSimpleAlgorithm] of what [lsst.meas.base] evaluates to. *)
Lemma wrapSimpleAlgorithm_chain env p f :
  wrapSimpleAlgorithm env p = Done f p →
  ∃ m0 m1 m2,
    load_name env "lsst" p = Done m0 p ∧
    getattr env "meas" m0 p = Done m1 p ∧
    getattr env "base" m1 p = Done m2 p ∧
    getattr env "wrapSimpleAlgorithm" m2 p = Done f p.
Proof.
  unfold wrapSimpleAlgorithm. intros H.
  apply bind_Done in H as (m0 & p0 & H0 & H).
  pose proof (load_name_Done _ _ _ _ _ H0) as [-> _].
  apply bind_Done in H as (m1 & p1 & H1 & H).
  pose proof (getattr_Done _ _ _ _ _ _ H1) as ->.
  apply bind_Done in H as (m2 & p2 & H2 & H).
  pose proof (getattr_Done _ _ _ _ _ _ H2) as ->.
  by exists m0, m1, m2.
Qed.

(** The call a completed run makes: after the imports, the entry point is
    looked up through [lsst], the host is invoked with the algorithm, the
    name, the control, the execution order and the flag, and the registry
    it returns is the registry of the final state. *)
Lemma registration_call env w w' :
  exec_block (module_body env) w = Done tt w' →
  ∃ w3 m1 m2 f alg ctl res,
    exec_block (import_statements env) w = Done tt w3 ∧
    getattr env "meas" (VModule "lsst") w3 = Done m1 w3 ∧
    getattr env "base" m1 w3 = Done m2 w3 ∧
    getattr env "wrapSimpleAlgorithm" m2 w3 = Done f w3 ∧
    load_name env "KronFluxAlgorithm" w3 = Done alg w3 ∧
    load_name env "KronFluxControl" w3 = Done ctl w3 ∧
    invoke env f [alg]
      [("name", VStr "ext_photometryKron_KronFlux"); ("Control", ctl);
       ("executionOrder", VFloat 2.0%float); ("shouldApCorr", VBool true)]
      (registry w3) = (inr res, registry w').
Proof.
  intros H. apply module_body_summary in H
    as (w3 & f & alg & ctl & res & Himp & Hf & Ha & Hc & Hinv & _ & _ & _).
  destruct (import_statements_summary _ _ _ Himp) as (_ & _ & _ & _ & _ & _ & Hl & _).
  destruct (wrapSimpleAlgorithm_chain _ _ _ Hf) as (m0 & m1 & m2 & H0 & H1 & H2 & H3).
  apply load_name_Done in H0 as [_ [H0|[H0 _]]]; [|congruence].
  assert (m0 = VModule "lsst") as -> by congruence.
  by exists w3, m1, m2, f, alg, ctl, res.
Qed.

(** ** The registration *)

Section HostContract.

(** The installation is arbitrary, the host keeping its side of the
    registration. *)
Context (env : environ) (host_ok : registration_contract env).

(** Under the host's contract, the entry that a completed run leaves
    under the registration name is the tuple that was passed. *)
Lemma recorded_entry w w' :
  exec_block (module_body env) w = Done tt w' →
  ∃ w3 f alg ctl,
    exec_block (import_statements env) w = Done tt w3 ∧
    load_name env "KronFluxAlgorithm" w3 = Done alg w3 ∧
    load_name env "KronFluxControl" w3 = Done ctl w3 ∧
    trace w' = trace w3 ++ [EvCall f [alg] (registration_kwargs ctl); EvDel "lsst"] ∧
    entries_named registration_name (registry w')
      = [Entry registration_name alg ctl 2.0%float true] ∧
    ∀ n, n ≠ registration_name →
         entries_named n (registry w') = entries_named n (registry w3).
Proof.
  intros H. apply module_body_summary in H
    as (w3 & f & alg & ctl & res & Himp & _ & Ha & Hc & Hinv & _ & _ & Ht).
  destruct (host_ok _ _ _ _ _ _ _ _ _ Hinv) as [Hentry Hothers].
  exists w3, f, alg, ctl. by repeat split.
Qed.

(** C1.  After a completed import the host registry holds exactly one
    entry named "ext_photometryKron_KronFlux": the run performs a single
    call of the registration entry point, that call passes this name, and
    entries under every other name are as the imports left them. *)
Theorem registry_has_single_KronFlux_entry w w' :
  exec_block (module_body env) w = Done tt w' →
  length (entries_named registration_name (registry w')) = 1 ∧
  ∃ f alg ctl evs w3,
    trace w' = trace w ++ evs ∧
    calls evs = [EvCall f [alg] (registration_kwargs ctl)] ∧
    assoc "name" (registration_kwargs ctl) = Some (VStr registration_name) ∧
    registration_name = "ext_photometryKron_KronFlux" ∧
    exec_block (import_statements env) w = Done tt w3 ∧
    ∀ n, n ≠ registration_name →
         entries_named n (registry w') = entries_named n (registry w3).
Proof.
  intros H.
  destruct (recorded_entry _ _ H)
    as (w3 & f0 & alg0 & ctl0 & Himp & _ & _ & _ & Hentry & Hothers).
  destruct (module_body_trace _ _ _ H) as (f & alg & ctl & Ht).
  split; [by rewrite Hentry|].
  eexists f, alg, ctl, _, w3. split; [exact Ht|].
  by rewrite calls_of_run.
Qed.

(** C2.  The execution order passed to the registration call is the
    constant 2.0, and so is the execution order of the entry recorded
    under "ext_photometryKron_KronFlux": the host is invoked, through the
    attribute [wrapSimpleAlgorithm], with executionOrder=2.0, the registry
    it returns is the final one, and that registry holds one entry of the
    name, whose execution order is 2.0. *)
Theorem execution_order_is_2 w w' :
  exec_block (module_body env) w = Done tt w' →
  (∃ w3 m1 m2 f alg ctl res,
     exec_block (import_statements env) w = Done tt w3 ∧
     getattr env "meas" (VModule "lsst") w3 = Done m1 w3 ∧
     getattr env "base" m1 w3 = Done m2 w3 ∧
     getattr env "wrapSimpleAlgorithm" m2 w3 = Done f w3 ∧
     invoke env f [alg]
       [("name", VStr "ext_photometryKron_KronFlux"); ("Control", ctl);
        ("executionOrder", VFloat 2.0%float); ("shouldApCorr", VBool true)]
       (registry w3) = (inr res, registry w')) ∧
  (∃ e, entries_named "ext_photometryKron_KronFlux" (registry w') = [e] ∧
        e_executionOrder e = 2.0%float) ∧
  (∃ f args kwargs evs,
     trace w' = trace w ++ evs ∧
     calls evs = [EvCall f args kwargs] ∧
     assoc "executionOrder" kwargs = Some (VFloat 2.0%float)) ∧
  ∀ e, e ∈ registry w' → e_name e = registration_name →
       e_executionOrder e = 2.0%float.
Proof.
  intros H.
  destruct (recorded_entry _ _ H)
    as (_ & _ & alg0 & ctl0 & _ & _ & _ & _ & Hentry & _).
  split; [|split; [|split]].
  - destruct (registration_call _ _ _ H)
      as (w3 & m1 & m2 & f & alg & ctl & res & Himp & H1 & H2 & H3 & _ & _ & Hinv).
    by exists w3, m1, m2, f, alg, ctl, res.
  - eexists. split; [exact Hentry|reflexivity].
  - destruct (module_body_trace _ _ _ H) as (f & alg & ctl & Ht).
    eexists f, [alg], (registration_kwargs ctl), _. split; [exact Ht|].
    by rewrite calls_of_run.
  - intros e He Hn.
    pose proof (entries_named_elem _ _ _ He Hn) as Hin.
    rewrite Hentry in Hin. apply list_elem_of_singleton in Hin as ->. done.
Qed.

(** C3.  The aperture-correction flag passed to the registration call is
    true, and so is the flag of the entry recorded under
    "ext_photometryKron_KronFlux": the host is invoked, through the
    attribute [wrapSimpleAlgorithm], with shouldApCorr=True, the registry
    it returns is the final one, and that registry holds one entry of the
    name, whose flag is set. *)
Theorem should_ap_corr_is_true w w' :
  exec_block (module_body env) w = Done tt w' →
  (∃ w3 m1 m2 f alg ctl res,
     exec_block (import_statements env) w = Done tt w3 ∧
     getattr env "meas" (VModule "lsst") w3 = Done m1 w3 ∧
     getattr env "base" m1 w3 = Done m2 w3 ∧
     getattr env "wrapSimpleAlgorithm" m2 w3 = Done f w3 ∧
     invoke env f [alg]
       [("name", VStr "ext_photometryKron_KronFlux"); ("Control", ctl);
        ("executionOrder", VFloat 2.0%float); ("shouldApCorr", VBool true)]
       (registry w3) = (inr res, registry w')) ∧
  (∃ e, entries_named "ext_photometryKron_KronFlux" (registry w') = [e] ∧
        e_shouldApCorr e = true) ∧
  (∃ f args kwargs evs,
     trace w' = trace w ++ evs ∧
     calls evs = [EvCall f args kwargs] ∧
     assoc "shouldApCorr" kwargs = Some (VBool true)) ∧
  ∀ e, e ∈ registry w' → e_name e = registration_name →
       e_shouldApCorr e = true.
Proof.
  intros H.
  destruct (recorded_entry _ _ H)
    as (_ & _ & alg0 & ctl0 & _ & _ & _ & _ & Hentry & _).
  split; [|split; [|split]].
  - destruct (registration_call _ _ _ H)
      as (w3 & m1 & m2 & f & alg & ctl & res & Himp & H1 & H2 & H3 & _ & _ & Hinv).
    by exists w3, m1, m2, f, alg, ctl, res.
  - eexists. split; [exact Hentry|reflexivity].
  - destruct (module_body_trace _ _ _ H) as (f & alg & ctl & Ht).
    eexists f, [alg], (registration_kwargs ctl), _. split; [exact Ht|].
    by rewrite calls_of_run.
  - intros e He Hn.
    pose proof (entries_named_elem _ _ _ He Hn) as Hin.
    rewrite Hentry in Hin. apply list_elem_of_singleton in Hin as ->. done.
Qed.

(** C4.  The control type bound to the entry is the object that kronLib
    exports as KronFluxControl, and the algorithm type is the one it
    exports as KronFluxAlgorithm; the version module, star-imported
    second, is as the spec describes it and rebinds neither name.  The
    host is invoked, through the attribute [wrapSimpleAlgorithm], with
    these two objects, the registry it returns is the final one, and that
    registry holds one entry of the name, which carries them. *)
Theorem bound_types_are_kronLib_exports w w' nsK nsV alg ctl :
  exec_block (module_body env) w = Done tt w' →
  sys_modules w' !! kronLib = Some nsK →
  exported nsK "KronFluxAlgorithm" = Some alg →
  exported nsK "KronFluxControl" = Some ctl →
  sys_modules w' !! version = Some nsV →
  version_as_specified nsV →
  (∃ w3 m1 m2 f res,
     exec_block (import_statements env) w = Done tt w3 ∧
     getattr env "meas" (VModule "lsst") w3 = Done m1 w3 ∧
     getattr env "base" m1 w3 = Done m2 w3 ∧
     getattr env "wrapSimpleAlgorithm" m2 w3 = Done f w3 ∧
     invoke env f [alg]
       [("name", VStr "ext_photometryKron_KronFlux"); ("Control", ctl);
        ("executionOrder", VFloat 2.0%float); ("shouldApCorr", VBool true)]
       (registry w3) = (inr res, registry w')) ∧
  (∃ e, entries_named "ext_photometryKron_KronFlux" (registry w') = [e] ∧
        e_control e = ctl ∧ e_algorithm e = alg) ∧
  (∃ f evs,
     trace w' = trace w ++ evs ∧
     calls evs = [EvCall f [alg] (registration_kwargs ctl)] ∧
     assoc "Control" (registration_kwargs ctl) = Some ctl) ∧
  ∀ e, e ∈ registry w' → e_name e = registration_name →
       e_control e = ctl ∧ e_algorithm e = alg.
Proof.
  intros H HK Halg Hctl HV [HValg HVctl].
  destruct (recorded_entry _ _ H)
    as (w3 & f & alg' & ctl' & Himp & Ha & Hc & Ht & Hentry & _).
  pose proof H as Hsum. apply module_body_summary in Hsum
    as (w3' & _ & _ & _ & _ & Himp' & _ & _ & _ & _ & _ & Hm & _).
  rewrite Himp in Himp'. injection Himp' as <-.
  destruct (import_statements_summary _ _ _ Himp)
    as (nsK' & nsV' & HK3 & HV3 & _ & Ht3 & _ & Hg & _).
  rewrite (final_modules_frame _ _ _ _ Hm) in HK by names_differ.
  rewrite (final_modules_frame _ _ _ _ Hm) in HV by names_differ.
  assert (nsK' = nsK) as -> by congruence.
  assert (nsV' = nsV) as -> by congruence.
  assert (alg' = alg) as ->.
  { apply load_name_Done in Ha as [_ Hl].
    rewrite Hg, HValg, Halg in Hl by names_differ.
    destruct Hl as [Hl|[Hl _]]; congruence. }
  assert (ctl' = ctl) as ->.
  { apply load_name_Done in Hc as [_ Hl].
    rewrite Hg, HVctl, Hctl in Hl by names_differ.
    destruct Hl as [Hl|[Hl _]]; congruence. }
  split; [|split; [|split]].
  - destruct (registration_call _ _ _ H)
      as (w3' & m1 & m2 & f1 & alg1 & ctl1 & res & Himp' & H1 & H2 & H3 & Ha1 & Hc1 & Hinv).
    rewrite Himp in Himp'. injection Himp' as <-.
    assert (alg1 = alg) as -> by congruence.
    assert (ctl1 = ctl) as -> by congruence.
    by exists w3, m1, m2, f1, res.
  - eexists. split; [exact Hentry|]. by split.
  - eexists f, _. split; [|split].
    + rewrite Ht, Ht3, <- app_assoc. reflexivity.
    + reflexivity.
    + reflexivity.
  - intros e He Hn. pose proof (entries_named_elem _ _ _ He Hn) as Hin.
    rewrite Hentry in Hin. apply list_elem_of_singleton in Hin as ->. done.
Qed.

(** C9.  The final [del lsst] removes the one binding from the package's
    namespace and nothing else: the registry is as the call left it, so
    the entry "ext_photometryKron_KronFlux" is still there, every other
    module's namespace and every other name of the package are untouched,
    and the framework's modules are still in the module table. *)
Theorem del_keeps_registration_and_framework w w' :
  exec_block (module_body env) w = Done tt w' →
  ∃ w4,
    exec_block (through_registration env) w = Done tt w4 ∧
    del_name "lsst" w4 = Done tt w' ∧
    registry w' = registry w4 ∧
    (∀ k, k ≠ this_module → sys_modules w' !! k = sys_modules w4 !! k) ∧
    (∀ n, n ≠ "lsst" → globals w' !! n = globals w4 !! n) ∧
    (∃ e, e ∈ registry w' ∧ e_name e = registration_name) ∧
    is_Some (sys_modules w' !! "lsst") ∧
    is_Some (sys_modules w' !! "lsst.meas") ∧
    is_Some (sys_modules w' !! "lsst.meas.base").
Proof.
  intros H.
  destruct (recorded_entry _ _ H) as (_ & _ & alg & ctl & _ & _ & _ & _ & Hentry & _).
  pose proof H as Hchain. apply module_body_Done in Hchain
    as (w1 & w2 & w3 & w4 & H1 & H2 & H3 & H4 & H5).
  assert (exec_block (import_statements env) w = Done tt w3) as Himp
    by (apply import_statements_Done; eauto).
  destruct (import_statements_summary _ _ _ Himp)
    as (_ & _ & _ & _ & (L1 & L2 & L3) & _).
  pose proof H4 as H4'. apply register_KronFlux_Done in H4'
    as (_ & _ & _ & _ & _ & _ & _ & _ & Hm4 & _).
  pose proof H5 as H5'. apply del_name_Done in H5' as [_ Hw'].
  assert (sys_modules w' = <[this_module := delete "lsst" (globals w4)]> (sys_modules w4))
    as Hm by (by rewrite Hw').
  assert (registry w' = registry w4) as Hr by (by rewrite Hw').
  exists w4. split; [apply through_registration_Done; eauto|].
  split; [done|]. split; [done|]. split; [|split; [|split]].
  - intros k Hk. by apply (final_modules_frame _ _ _ _ Hm).
  - intros n Hn. rewrite (final_globals _ _ _ Hm). by rewrite lookup_delete_ne.
  - exists (Entry registration_name alg ctl 2.0%float true). split; [|reflexivity].
    apply (list_elem_of_filter (λ e, e_name e = registration_name)).
    fold (entries_named registration_name (registry w')).
    rewrite Hentry. apply list_elem_of_singleton. reflexivity.
  - rewrite !(final_modules_frame _ _ _ _ Hm) by names_differ. by rewrite Hm4.
Qed.

End HostContract.

(** ** The call and what surrounds it *)

Lemma register_with_result g env p :
  register_KronFlux (with_result g env) p = register_KronFlux env p.
Proof.
  unfold register_KronFlux, bind.
  change (wrapSimpleAlgorithm (with_result g env)) with (wrapSimpleAlgorithm env).
  destruct (wrapSimpleAlgorithm env p) as [f p0|]; [|done].
  change (load_name (with_result g env)) with (load_name env).
  destruct (load_name env "KronFluxAlgorithm" p0) as [alg p1|]; [|done].
  destruct (load_name env "KronFluxControl" p1) as [ctl p2|]; [|done].
  unfold call, bind, log. cbn [registry sys_modules trace invoke with_result].
  by destruct (invoke env f [alg] (registration_kwargs ctl) (registry p2)) as [[e|v] r].
Qed.

Lemma module_body_with_result g env w :
  exec_block (module_body (with_result g env)) w = exec_block (module_body env) w.
Proof.
  unfold module_body.
  change (import_star (with_result g env)) with (import_star env).
  change (import_lsst_meas_base (with_result g env)) with (import_lsst_meas_base env).
  cbn [exec_block]. unfold bind.
  destruct (import_star env kronLib w) as [[] w1|]; [|done].
  destruct (import_star env version w1) as [[] w2|]; [|done].
  destruct (import_lsst_meas_base env w2) as [[] w3|]; [|done].
  by rewrite register_with_result.
Qed.

(** C5.  A completed import performs exactly one call of the registration
    entry point.  Its final state is the state the imports produced (the
    registry having changed there only by modules being loaded), with the
    registry the host returned from that call and with [lsst] removed from
    the namespace; nothing touches the registry after the call, and the
    value the call returns has no influence on the run. *)
Theorem single_registration_only_effect env w w' :
  exec_block (module_body env) w = Done tt w' →
  ∃ w3 f alg ctl res evs,
    exec_block (import_statements env) w = Done tt w3 ∧
    rtc (load_step env) (registry w) (registry w3) ∧
    invoke env f [alg] (registration_kwargs ctl) (registry w3) = (inr res, registry w') ∧
    sys_modules w' = <[this_module := delete "lsst" (globals w3)]> (sys_modules w3) ∧
    trace w' = trace w ++ evs ∧
    calls evs = [EvCall f [alg] (registration_kwargs ctl)] ∧
    ∀ g, exec_block (module_body (with_result g env)) w = Done tt w'.
Proof.
  intros H. pose proof H as Hsum. apply module_body_summary in Hsum
    as (w3 & f & alg & ctl & res & Himp & _ & _ & _ & Hinv & _ & Hm & Ht).
  destruct (import_statements_summary _ _ _ Himp)
    as (_ & _ & _ & _ & _ & Ht3 & _ & _ & Hloads).
  eexists w3, f, alg, ctl, res, _. do 4 (split; [done|]). split; [|split].
  - rewrite Ht, Ht3, <- app_assoc. reflexivity.
  - reflexivity.
  - intros g. by rewrite module_body_with_result.
Qed.

(** C7.  After a completed import the name [lsst], which the import of
    the framework bound, is not in the package's namespace. *)
Theorem framework_name_not_leaked env w w' :
  exec_block (module_body env) w = Done tt w' →
  globals w' !! "lsst" = None.
Proof.
  intros H. apply module_body_summary in H
    as (w3 & _ & _ & _ & _ & _ & _ & _ & _ & _ & _ & Hm & _).
  rewrite (final_globals _ _ _ Hm). apply lookup_delete_eq.
Qed.

(** ** Failing runs *)



Lemma import_star_load_fails env name p e p' :
  load_fails env name p e p' → import_star env name p = Raised e p'.
Proof.
  intros Hf. unfold import_star. apply bind_Raised. left.
  by apply import_module_Raised.
Qed.

Lemma import_lsst_meas_base_Raised env p e p' :
  import_lsst_meas_base env p = Raised e p' ↔
  import_module env "lsst" p = Raised e p' ∨
  ∃ p1, import_module env "lsst" p = Done tt p1 ∧
    (import_module env "lsst.meas" p1 = Raised e p' ∨
     ∃ p2, import_module env "lsst.meas" p1 = Done tt p2 ∧
           import_module env "lsst.meas.base" p2 = Raised e p').
Proof.
  unfold import_lsst_meas_base. rewrite bind_Raised. split.
  - intros [H|([] & p1 & H1 & H)]; [by left|]. right. exists p1. split; [done|].
    apply bind_Raised in H as [H|([] & p2 & H2 & H)]; [by left|]. right.
    exists p2. split; [done|].
    apply bind_Raised in H as [H|([] & p3 & H3 & H)]; [done|].
    apply bind_Raised in H as [H|([] & p4 & H4 & H)]; done.
  - intros [H|(p1 & H1 & [H|(p2 & H2 & H)])]; [by left|right; exists tt, p1..].
    + split; [done|]. apply bind_Raised. by left.
    + split; [done|]. apply bind_Raised. right. exists tt, p2. split; [done|].
      apply bind_Raised. by left.
Qed.


Lemma load_name_Raised env n p e p' :
  load_name env n p = Raised e p' →
  e = NameError n ∧ p' = p ∧ globals p !! n = None ∧ builtins env !! n = None.
Proof.
  unfold load_name. destruct (globals p !! n); [done|].
  destruct (builtins env !! n); [done|]. by intros [= <- <-].
Qed.

Lemma getattr_Raised env attr v p e p' :
  getattr env attr v p = Raised e p' → p' = p.
Proof.
  unfold getattr. destruct v; try by intros [= _ <-].
  - destruct (sys_modules p !! name ≫= _); [done|]. by intros [= _ <-].
  - destruct (object_attr env id attr); [done|]. by intros [= _ <-].
Qed.

Lemma wrapSimpleAlgorithm_Raised env p e p' :
  wrapSimpleAlgorithm env p = Raised e p' → p' = p.
Proof.
  unfold wrapSimpleAlgorithm. intros H.
  apply bind_Raised in H as [H|(m0 & p0 & H0 & H)];
    [by apply load_name_Raised in H as (_ & -> & _)|].
  apply load_name_Done in H0 as [-> _].
  apply bind_Raised in H as [H|(m1 & p1 & H1 & H)]; [by apply getattr_Raised in H|].
  apply getattr_Done in H1 as ->.
  apply bind_Raised in H as [H|(m2 & p2 & H2 & H)]; [by apply getattr_Raised in H|].
  apply getattr_Done in H2 as ->. by apply getattr_Raised in H.
Qed.

(** The call statement fails either while callee and arguments are
    evaluated, the state being untouched, or because the host raises. *)
Lemma register_KronFlux_Raised env p e p' :
  register_KronFlux env p = Raised e p' ↔
  (p' = p ∧
   (wrapSimpleAlgorithm env p = Raised e p ∨
    ∃ f, wrapSimpleAlgorithm env p = Done f p ∧
      (load_name env "KronFluxAlgorithm" p = Raised e p ∨
       ∃ alg, load_name env "KronFluxAlgorithm" p = Done alg p ∧
              load_name env "KronFluxControl" p = Raised e p))) ∨
  ∃ f alg ctl r,
    wrapSimpleAlgorithm env p = Done f p ∧
    load_name env "KronFluxAlgorithm" p = Done alg p ∧
    load_name env "KronFluxControl" p = Done ctl p ∧
    invoke env f [alg] (registration_kwargs ctl) (registry p) = (inl e, r) ∧
    p' = Process (sys_modules p) r (trace p ++ [EvCall f [alg] (registration_kwargs ctl)]).
Proof.
  unfold register_KronFlux. split.
  - intros H. apply bind_Raised in H as [H|(f & p0 & Hf & H)].
    { pose proof (wrapSimpleAlgorithm_Raised _ _ _ _ H) as ->. left. auto. }
    pose proof (wrapSimpleAlgorithm_Done _ _ _ _ Hf) as ->.
    apply bind_Raised in H as [H|(alg & p1 & Ha & H)].
    { pose proof (load_name_Raised _ _ _ _ _ H) as (_ & -> & _). left.
      split; [done|]. right. exists f. split; [done|]. by left. }
    pose proof (load_name_Done _ _ _ _ _ Ha) as [-> _].
    apply bind_Raised in H as [H|(ctl & p2 & Hc & H)].
    { pose proof (load_name_Raised _ _ _ _ _ H) as (_ & -> & _). left.
      split; [done|]. right. exists f. split; [done|]. right. eauto. }
    pose proof (load_name_Done _ _ _ _ _ Hc) as [-> _].
    apply bind_Raised in H as [H|(res & p3 & _ & H)]; [|done].
    unfold call in H. apply bind_Raised in H as [H|([] & p4 & [= <-] & H)]; [done|].
    cbn [registry sys_modules trace] in H.
    destruct (invoke env f [alg] (registration_kwargs ctl) (registry p))
      as [[e'|res] r] eqn:Hinv; [|done].
    injection H as <- <-. right. exists f, alg, ctl, r. by repeat split.
  - intros [[-> [H|(f & Hf & [H|(alg & Ha & H)])]]
           |(f & alg & ctl & r & Hf & Ha & Hc & Hinv & ->)].
    + apply bind_Raised. by left.
    + apply bind_Raised. right. exists f, p. split; [done|].
      apply bind_Raised. by left.
    + apply bind_Raised. right. exists f, p. split; [done|].
      apply bind_Raised. right. exists alg, p. split; [done|].
      apply bind_Raised. by left.
    + apply bind_Raised. right. exists f, p. split; [done|].
      apply bind_Raised. right. exists alg, p. split; [done|].
      apply bind_Raised. right. exists ctl, p. split; [done|].
      apply bind_Raised. left. unfold call. apply bind_Raised. right.
      eexists tt, _. split; [reflexivity|].
      cbn [registry sys_modules trace]. by rewrite Hinv.
Qed.

Lemma del_name_Raised n p e p' :
  del_name n p = Raised e p' → e = NameError n ∧ p' = p ∧ globals p !! n = None.
Proof.
  unfold del_name. destruct (globals p !! n) eqn:Hl; [done|]. by intros [= <- <-].
Qed.

(** A statement that raises ends the block with that exception. *)
Lemma exec_block_Raised_at pre s post w w1 e w2 :
  exec_block pre w = Done tt w1 → s w1 = Raised e w2 →
  exec_block (pre ++ s :: post) w = Raised e w2.
Proof.
  intros Hpre Hs. rewrite (exec_block_app _ _ _ _ Hpre). simpl.
  unfold bind. by rewrite Hs.
Qed.

(** Conversely, a block that raises does so in one of its statements. *)
Lemma exec_block_Raised body w e w2 :
  exec_block body w = Raised e w2 →
  ∃ pre s post w1, body = pre ++ s :: post ∧
    exec_block pre w = Done tt w1 ∧ s w1 = Raised e w2.
Proof.
  revert w. induction body as [|s body IH]; intros w; simpl; [done|].
  intros H. apply bind_Raised in H as [H|([] & p1 & Hs & H)].
  - by exists [], s, body, w.
  - destruct (IH _ H) as (pre & s' & post & w1 & -> & Hpre & Hs').
    exists (s :: pre), s', post, w1. split; [done|]. split; [|done].
    simpl. apply bind_Done. by exists tt, p1.
Qed.

Lemma framework_load_fails_Raised env p e p' :
  framework_load_fails env p e p' → import_lsst_meas_base env p = Raised e p'.
Proof.
  intros H. apply import_lsst_meas_base_Raised.
  destruct H as [H|(p1 & H1 & [H|(p2 & H2 & H)])].
  - left. by apply import_module_Raised.
  - right. exists p1. split; [done|]. left. by apply import_module_Raised.
  - right. exists p1. split; [done|]. right. exists p2. split; [done|].
    by apply import_module_Raised.
Qed.

(** C6.  The body handles no exception.  Whichever statement raises, the
    run of the body ends there with that same exception, and an exception
    that ends the run is the one some statement raised.  In particular a
    companion module or the framework failing to load, and the host
    rejecting the registration, end the run with the exception they
    raised, in the state they left. *)
Theorem init_failure_propagates env w :
  (∀ pre s post w1 e w2,
     module_body env = pre ++ s :: post →
     exec_block pre w = Done tt w1 → s w1 = Raised e w2 →
     exec_block (module_body env) w = Raised e w2) ∧
  (∀ e w2,
     exec_block (module_body env) w = Raised e w2 →
     ∃ pre s post w1, module_body env = pre ++ s :: post ∧
       exec_block pre w = Done tt w1 ∧ s w1 = Raised e w2) ∧
  (∀ e w',
     load_fails env kronLib w e w' →
     exec_block (module_body env) w = Raised e w') ∧
  (∀ w1 e w',
     import_star env kronLib w = Done tt w1 →
     load_fails env version w1 e w' →
     exec_block (module_body env) w = Raised e w') ∧
  (∀ w2 e w',
     exec_block (take 2 (module_body env)) w = Done tt w2 →
     framework_load_fails env w2 e w' →
     exec_block (module_body env) w = Raised e w') ∧
  (∀ w3 f alg ctl e r,
     exec_block (import_statements env) w = Done tt w3 →
     wrapSimpleAlgorithm env w3 = Done f w3 →
     load_name env "KronFluxAlgorithm" w3 = Done alg w3 →
     load_name env "KronFluxControl" w3 = Done ctl w3 →
     invoke env f [alg] (registration_kwargs ctl) (registry w3) = (inl e, r) →
     exec_block (module_body env) w =
       Raised e (Process (sys_modules w3) r
                   (trace w3 ++ [EvCall f [alg] (registration_kwargs ctl)]))).
Proof.
  split; [|split; [|split; [|split; [|split]]]].
  - intros pre s post w1 e w2 -> Hpre Hs. by apply (exec_block_Raised_at _ _ _ w w1).
  - intros e w2. apply exec_block_Raised.
  - intros e w' Hf.
    apply (exec_block_Raised_at [] _ _ w w); [done|]. by apply import_star_load_fails.
  - intros w1 e w' H1 Hf.
    apply (exec_block_Raised_at [import_star env kronLib] _ _ w w1).
    + simpl. apply bind_Done. by exists tt, w1.
    + by apply import_star_load_fails.
  - intros w2 e w' H2 Hf.
    apply (exec_block_Raised_at (take 2 (module_body env)) _ _ w w2); [done|].
    by apply framework_load_fails_Raised.
  - intros w3 f alg ctl e r Himp Hf Ha Hc Hinv.
    apply (exec_block_Raised_at (import_statements env) _ _ w w3); [done|].
    apply register_KronFlux_Raised. right. exists f, alg, ctl, r. by repeat split.
Qed.

(** ** Order of the effects *)



(** ** A name the companion module does not export *)

(** C10.  Let [n] be KronFluxAlgorithm or KronFluxControl, bound neither
    in the namespace the body starts from nor among the builtins, the
    version module being as the spec describes it.  Then a run can
    complete only if kronLib exports [n]; and if kronLib does not, a run
    that reaches the call statement with the callee resolved raises a
    NameError for one of the two names there, in the very state the
    imports produced: no call is made and the registry is not touched. *)
Theorem missing_export_is_name_error env w n :
  n = "KronFluxAlgorithm" ∨ n = "KronFluxControl" →
  globals w !! n = None → builtins env !! n = None →
  (∀ w' nsK nsV,
     exec_block (module_body env) w = Done tt w' →
     sys_modules w' !! kronLib = Some nsK →
     sys_modules w' !! version = Some nsV → version_as_specified nsV →
     is_Some (exported nsK n)) ∧
  (∀ w3 f nsK nsV,
     exec_block (import_statements env) w = Done tt w3 →
     wrapSimpleAlgorithm env w3 = Done f w3 →
     sys_modules w3 !! kronLib = Some nsK → exported nsK n = None →
     sys_modules w3 !! version = Some nsV → version_as_specified nsV →
     ∃ n' evs,
       (n' = "KronFluxAlgorithm" ∨ n' = "KronFluxControl") ∧
       exec_block (module_body env) w = Raised (NameError n') w3 ∧
       trace w3 = trace w ++ evs ∧ calls evs = [] ∧
       rtc (load_step env) (registry w) (registry w3)).
Proof.
  intros Hn Hg Hb.
  assert (n ≠ "lsst" ∧ n ≠ "kronLib" ∧ n ≠ "version") as (Hn1 & Hn2 & Hn3)
    by (destruct Hn as [-> | ->]; repeat split; names_differ).
  split.
  - intros w' nsK nsV H HK HV Hspec.
    assert (exported nsV n = None) as HeV
      by (destruct Hspec; destruct Hn as [-> | ->]; done).
    pose proof H as Hsum. apply module_body_summary in Hsum
      as (w3 & f & alg & ctl & res & Himp & _ & Ha & Hc & _ & _ & Hm & _).
    destruct (import_statements_summary _ _ _ Himp)
      as (nsK' & nsV' & HK3 & HV3 & _ & _ & _ & Hglob & _).
    rewrite (final_modules_frame _ _ _ _ Hm) in HK by names_differ.
    rewrite (final_modules_frame _ _ _ _ Hm) in HV by names_differ.
    assert (nsK' = nsK) as -> by congruence.
    assert (nsV' = nsV) as -> by congruence.
    assert (∃ v, load_name env n w3 = Done v w3) as [v Hv]
      by (destruct Hn as [-> | ->]; eauto).
    apply load_name_Done in Hv as [_ [Hv|[_ Hv]]]; [|congruence].
    rewrite Hglob, HeV in Hv by done.
    destruct (exported nsK n) as [v'|]; [eauto|congruence].
  - intros w3 f nsK nsV Himp Hf HK HeK HV Hspec.
    assert (exported nsV n = None) as HeV
      by (destruct Hspec; destruct Hn as [-> | ->]; done).
    destruct (import_statements_summary _ _ _ Himp)
      as (nsK' & nsV' & HK3 & HV3 & _ & Ht3 & _ & Hglob & Hloads).
    assert (nsK' = nsK) as -> by congruence.
    assert (nsV' = nsV) as -> by congruence.
    assert (load_name env n w3 = Raised (NameError n) w3) as Hfail.
    { apply load_name_unbound; [|done]. by rewrite Hglob, HeV, HeK. }
    assert (∃ n', (n' = "KronFluxAlgorithm" ∨ n' = "KronFluxControl") ∧
                  register_KronFlux env w3 = Raised (NameError n') w3)
      as (n' & Hn' & Hreg).
    { destruct (load_name env "KronFluxAlgorithm" w3) as [alg p|e p] eqn:Ha.
      - pose proof (load_name_Done _ _ _ _ _ Ha) as [-> _].
        destruct Hn as [-> | ->]; [congruence|].
        exists "KronFluxControl". split; [by right|].
        apply register_KronFlux_Raised. left. split; [done|]. right.
        exists f. split; [done|]. right. by exists alg.
      - pose proof (load_name_Raised _ _ _ _ _ Ha) as (-> & -> & _).
        exists "KronFluxAlgorithm". split; [by left|].
        apply register_KronFlux_Raised. left. split; [done|]. right.
        exists f. split; [done|]. by left. }
    eexists n', _. split; [done|]. split; [|split; [exact Ht3|split; [reflexivity|done]]].
    by apply (exec_block_Raised_at (import_statements env) _ _ w w3).
Qed.

(** ** The properties on the reference installation *)

(** The literal 2.0 denotes the number two: mantissa 2^52, exponent -51. *)
Lemma execution_order_exact :
  assoc "executionOrder" (registration_kwargs VNone) = Some (VFloat 2.0%float) ∧
  Prim2SF 2.0%float = S754_finite false 4503599627370496 (-51).
Proof. split; reflexivity. Qed.

Lemma registry_has_single_KronFlux_entry_witness :
  exec_block (module_body reference_env) reference_process = Done tt reference_final ∧
  length (entries_named registration_name (registry reference_final)) = 1.
Proof.
  assert (exec_block (module_body reference_env) reference_process
          = Done tt reference_final) as H by (vm_compute; reflexivity).
  split; [exact H|].
  exact (proj1 (registry_has_single_KronFlux_entry reference_env
                  (host_register_contract _ _ _ _) reference_process reference_final H)).
Defined.

Lemma execution_order_is_2_witness :
  exec_block (module_body reference_env) reference_process = Done tt reference_final ∧
  ∃ e, entries_named "ext_photometryKron_KronFlux" (registry reference_final) = [e] ∧
       e_executionOrder e = 2.0%float.
Proof.
  assert (exec_block (module_body reference_env) reference_process
          = Done tt reference_final) as H by (vm_compute; reflexivity).
  split; [exact H|].
  exact (proj1 (proj2 (execution_order_is_2 reference_env
                         (host_register_contract _ _ _ _)
                         reference_process reference_final H))).
Defined.

Lemma should_ap_corr_is_true_witness :
  exec_block (module_body reference_env) reference_process = Done tt reference_final ∧
  ∃ e, entries_named "ext_photometryKron_KronFlux" (registry reference_final) = [e] ∧
       e_shouldApCorr e = true.
Proof.
  assert (exec_block (module_body reference_env) reference_process
          = Done tt reference_final) as H by (vm_compute; reflexivity).
  split; [exact H|].
  exact (proj1 (proj2 (should_ap_corr_is_true reference_env
                         (host_register_contract _ _ _ _)
                         reference_process reference_final H))).
Defined.

Lemma bound_types_are_kronLib_exports_witness :
  exec_block (module_body reference_env) reference_process = Done tt reference_final ∧
  ∃ e, entries_named "ext_photometryKron_KronFlux" (registry reference_final) = [e] ∧
       e_control e = VObject "kronLib.KronFluxControl" ∧
       e_algorithm e = VObject "kronLib.KronFluxAlgorithm".
Proof.
  assert (exec_block (module_body reference_env) reference_process
          = Done tt reference_final) as H by (vm_compute; reflexivity).
  split; [exact H|].
  refine (proj1 (proj2 (bound_types_are_kronLib_exports reference_env
                          (host_register_contract _ _ _ _)
                          reference_process reference_final
                          kronLib_namespace version_namespace _ _ H _ _ _ _ _)));
    first [vm_compute; reflexivity | split; vm_compute; reflexivity].
Defined.

Lemma single_registration_only_effect_witness :
  ∃ w3 f alg ctl res evs,
    exec_block (import_statements reference_env) reference_process = Done tt w3 ∧
    rtc (load_step reference_env) (registry reference_process) (registry w3) ∧
    invoke reference_env f [alg] (registration_kwargs ctl) (registry w3)
      = (inr res, registry reference_final) ∧
    sys_modules reference_final
      = <[this_module := delete "lsst" (globals w3)]> (sys_modules w3) ∧
    trace reference_final = trace reference_process ++ evs ∧
    calls evs = [EvCall f [alg] (registration_kwargs ctl)] ∧
    ∀ g, exec_block (module_body (with_result g reference_env)) reference_process
         = Done tt reference_final.
Proof.
  apply (single_registration_only_effect reference_env reference_process reference_final).
  vm_compute; reflexivity.
Defined.

Lemma init_failure_propagates_witness :
  raised (exec_block (module_body reference_env) registered_process)
    = Some (HostError "duplicate name") ∧
  raised (exec_block (module_body no_framework_env) reference_process)
    = Some (ImportError "lsst.meas.base").
Proof.
  split.
  - destruct (init_failure_propagates reference_env registered_process)
      as (_ & _ & _ & _ & _ & Hhost).
    rewrite (Hhost
               (final_state (exec_block (import_statements reference_env) registered_process))
               (VObject "lsst.meas.base.wrapSimpleAlgorithm")
               (VObject "kronLib.KronFluxAlgorithm") (VObject "kronLib.KronFluxControl")
               (HostError "duplicate name") (registry registered_process));
      [reflexivity | vm_compute; reflexivity ..].
  - destruct (init_failure_propagates no_framework_env reference_process)
      as (_ & _ & _ & _ & Hframework & _).
    rewrite (Hframework no_framework_stuck (ImportError "lsst.meas.base")
               no_framework_stuck);
      [reflexivity | vm_compute; reflexivity |].
    right. exists no_framework_stuck. split; [vm_compute; reflexivity|].
    right. exists no_framework_stuck. split; [vm_compute; reflexivity|].
    split; [vm_compute; reflexivity|].
    exists (registry no_framework_stuck). split; vm_compute; reflexivity.
Defined.

Lemma framework_name_not_leaked_witness :
  exec_block (module_body reference_env) reference_process = Done tt reference_final ∧
  globals reference_final !! "lsst" = None.
Proof.
  assert (exec_block (module_body reference_env) reference_process
          = Done tt reference_final) as H by (vm_compute; reflexivity).
  split; [exact H|].
  exact (framework_name_not_leaked reference_env reference_process reference_final H).
Defined.


Lemma del_keeps_registration_and_framework_witness :
  ∃ w4,
    exec_block (through_registration reference_env) reference_process = Done tt w4 ∧
    del_name "lsst" w4 = Done tt reference_final ∧
    registry reference_final = registry w4 ∧
    (∀ k, k ≠ this_module → sys_modules reference_final !! k = sys_modules w4 !! k) ∧
    (∀ n, n ≠ "lsst" → globals reference_final !! n = globals w4 !! n) ∧
    (∃ e, e ∈ registry reference_final ∧ e_name e = registration_name) ∧
    is_Some (sys_modules reference_final !! "lsst") ∧
    is_Some (sys_modules reference_final !! "lsst.meas") ∧
    is_Some (sys_modules reference_final !! "lsst.meas.base").
Proof.
  apply (del_keeps_registration_and_framework reference_env
           (host_register_contract _ _ _ _) reference_process reference_final).
  vm_compute; reflexivity.
Defined.

Lemma missing_export_is_name_error_witness :
  ∃ n' evs,
    (n' = "KronFluxAlgorithm" ∨ n' = "KronFluxControl") ∧
    exec_block (module_body incomplete_kronLib_env) reference_process
      = Raised (NameError n')
          (final_state (exec_block (import_statements incomplete_kronLib_env)
                          reference_process)) ∧
    trace (final_state (exec_block (import_statements incomplete_kronLib_env)
                          reference_process))
      = trace reference_process ++ evs ∧
    calls evs = [] ∧
    rtc (load_step incomplete_kronLib_env) (registry reference_process)
        (registry (final_state (exec_block (import_statements incomplete_kronLib_env)
                                  reference_process))).
Proof.
  refine (proj2 (missing_export_is_name_error incomplete_kronLib_env reference_process
                   "KronFluxControl" (or_intror eq_refl) _ _)
            _ (VObject "lsst.meas.base.wrapSimpleAlgorithm")
            (delete "KronFluxControl" kronLib_namespace) version_namespace
            _ _ _ _ _ _);
    first [vm_compute; reflexivity | split; vm_compute; reflexivity].
Defined.

(** * Further properties of the module body *)

(** ** Modules that are already loaded *)

Lemma import_module_cached env name p :
  is_Some (sys_modules p !! name) → import_module env name p = Done tt p.
Proof. unfold import_module. by intros [ns ->]. Qed.

Lemma bind_names_total module ns names p :
  (∀ n, n ∈ names → is_Some (ns !! n)) →
  ∃ p', bind_names module ns names p = Done tt p'.
Proof.
  revert p. induction names as [|a rest IH]; intros p Hall; simpl; [by eexists|].
  destruct (Hall a) as [v ->]; [by left|].
  unfold bind, store_name. apply IH. intros n Hn. apply Hall. by right.
Qed.

Lemma bind_names_app module ns names1 names2 p :
  bind_names module ns (names1 ++ names2) p =
  bind (bind_names module ns names1) (λ _, bind_names module ns names2) p.
Proof.
  revert p. induction names1 as [|a rest IH]; intros p; simpl; [done|].
  destruct (ns !! a) as [v|]; [|done].
  unfold bind, store_name. by rewrite IH.
Qed.

(** The names are bound in the order listed: binding stops at the first
    one the module does not define, those before it being bound. *)
Lemma bind_names_first_missing module ns before n0 after p :
  (∀ m, m ∈ before → is_Some (ns !! m)) → ns !! n0 = None →
  ∃ p', bind_names module ns (before ++ n0 :: after) p
          = Raised (AttributeError module n0) p' ∧
        trace p' = trace p ∧ registry p' = registry p ∧
        (∀ k, k ≠ this_module → sys_modules p' !! k = sys_modules p !! k) ∧
        ∀ m, m ∈ before → globals p' !! m = ns !! m.
Proof.
  intros Hbefore Hmiss.
  destruct (bind_names_total module ns before p Hbefore) as [p1 H1].
  destruct (bind_names_Done _ _ _ _ _ H1) as (Ht & Hr & Hm & Hin & _).
  exists p1. split; [|split; [done|split; [done|split; [done|]]]].
  - rewrite bind_names_app. unfold bind. rewrite H1. simpl. by rewrite Hmiss.
  - intros m Hmem. by destruct (Hin m Hmem).
Qed.

(** A star-import that completed read a namespace whose star names are
    all defined. *)
Lemma import_star_names env name p p' :
  name ≠ this_module →
  import_star env name p = Done tt p' →
  ∃ ns names,
    sys_modules p' !! name = Some ns ∧ star_names ns = inr names ∧
    ∀ n, n ∈ names → is_Some (ns !! n).
Proof.
  intros Hne H. unfold import_star in H.
  apply bind_Done in H as ([] & p1 & Himp & H).
  destruct (sys_modules p1 !! name) as [ns|] eqn:Hns; [|done].
  destruct (star_names ns) as [e|names] eqn:Hnames; [done|].
  apply bind_Done in H as ([] & p2 & Hbind & [= <-]).
  cbn [sys_modules].
  destruct (bind_names_Done _ _ _ _ _ Hbind) as (_ & _ & Hm & Hin & _).
  exists ns, names. split; [by rewrite Hm|]. split; [done|].
  intros n Hn. by destruct (Hin n Hn).
Qed.

(** The star-import of a module that is loaded: nothing is executed, the
    star names are bound, every other name stays. *)
Lemma import_star_of_loaded env name ns names p :
  sys_modules p !! name = Some ns → star_names ns = inr names →
  (∀ n, n ∈ names → is_Some (ns !! n)) →
  ∃ p', import_star env name p = Done tt p' ∧
        registry p' = registry p ∧
        trace p' = trace p ++ [EvStarImport name] ∧
        (∀ k, k ≠ this_module → sys_modules p' !! k = sys_modules p !! k) ∧
        ∀ n, globals p' !! n = match exported ns n with
                               | Some v => Some v
                               | None => globals p !! n
                               end.
Proof.
  intros Hns Hnames Hall.
  destruct (bind_names_total name ns names p Hall) as [p2 Hbind].
  destruct (bind_names_Done _ _ _ _ _ Hbind) as (Ht & Hr & Hm & Hin & Hout).
  exists (Process (sys_modules p2) (registry p2) (trace p2 ++ [EvStarImport name])).
  split; [|split; [done|split; [by rewrite Ht|split; [done|]]]].
  - unfold import_star. apply bind_Done. exists tt, p.
    split; [by apply import_module_cached|].
    rewrite Hns, Hnames. apply bind_Done. by exists tt, p2.
  - intros n. rewrite globals_same_modules. unfold exported. rewrite Hnames.
    destruct (decide (n ∈ names)) as [Hn|Hn].
    + destruct (Hin n Hn) as [[v Hv] Hg]. by rewrite Hg, Hv.
    + by apply Hout.
Qed.

Lemma import_lsst_meas_base_of_loaded env p :
  is_Some (sys_modules p !! "lsst") → is_Some (sys_modules p !! "lsst.meas") →
  is_Some (sys_modules p !! "lsst.meas.base") →
  import_lsst_meas_base env p =
    Done tt (Process (<[this_module := <["lsst" := VModule "lsst"]> (globals p)]>
                        (sys_modules p))
                     (registry p) (trace p ++ [EvImport "lsst.meas.base"])).
Proof.
  intros H1 H2 H3. unfold import_lsst_meas_base, bind.
  by rewrite !import_module_cached.
Qed.

(** The namespaces the two star-imports of a completed run read. *)
Lemma import_statements_names env w w3 :
  exec_block (import_statements env) w = Done tt w3 →
  ∃ nsK namesK nsV namesV,
    sys_modules w3 !! kronLib = Some nsK ∧ star_names nsK = inr namesK ∧
    (∀ n, n ∈ namesK → is_Some (nsK !! n)) ∧
    sys_modules w3 !! version = Some nsV ∧ star_names nsV = inr namesV ∧
    (∀ n, n ∈ namesV → is_Some (nsV !! n)).
Proof.
  intros H. apply import_statements_Done in H as (w1 & w2 & H1 & H2 & H3).
  assert (kronLib ≠ this_module) as HK by names_differ.
  assert (version ≠ this_module) as HV by names_differ.
  destruct (import_star_names _ _ _ _ HK H1) as (nsK & namesK & HnsK & HsK & HallK).
  destruct (import_star_names _ _ _ _ HV H2) as (nsV & namesV & HnsV & HsV & HallV).
  destruct (import_star_Done _ _ _ _ _ rsplit_version HV H2)
    as (_ & _ & _ & _ & _ & _ & HframeV).
  destruct (import_lsst_meas_base_Done _ _ _ H3) as (_ & _ & _ & Hstable).
  exists nsK, namesK, nsV, namesV. repeat split; try done.
  - apply Hstable; [done | names_differ | names_differ |].
    rewrite HframeV; [done | done | names_differ].
  - apply Hstable; [done | names_differ | names_differ | done].
Qed.

(** ** The namespace the package ends up with *)


(** ** With the dependencies loaded *)

(** X4.  With its dependencies loaded, the package only registers.  If
    kronLib, version and the three packages of the framework are in the
    module table when the body starts, a completed run executes no module:
    the registry it leaves is the one the host returned from the single
    call made on the registry the run started with, and every module but
    the package itself has the namespace it had. *)
Theorem preloaded_import_only_registers env w w' :
  exec_block (module_body env) w = Done tt w' →
  is_Some (sys_modules w !! kronLib) → is_Some (sys_modules w !! version) →
  is_Some (sys_modules w !! "lsst") → is_Some (sys_modules w !! "lsst.meas") →
  is_Some (sys_modules w !! "lsst.meas.base") →
  (∃ f alg ctl res,
     invoke env f [alg] (registration_kwargs ctl) (registry w) = (inr res, registry w')) ∧
  ∀ k, k ≠ this_module → sys_modules w' !! k = sys_modules w !! k.
Proof.
  intros H LK LV L1 L2 L3. apply module_body_Done in H
    as (w1 & w2 & w3 & w4 & H1 & H2 & H3 & H4 & H5).
  assert (kronLib ≠ this_module) as HK by names_differ.
  assert (version ≠ this_module) as HV by names_differ.
  (* first star-import *)
  assert (registry w1 = registry w) as Hr1.
  { destruct (import_star_registry _ _ _ _ H1) as [?|(ns & Hnone & _)]; [done|].
    rewrite Hnone in LK. by destruct LK. }
  assert (∀ k, k ≠ this_module → sys_modules w1 !! k = sys_modules w !! k) as Hf1.
  { destruct (import_star_Done _ _ _ _ _ rsplit_kronLib HK H1)
      as (nsK & HnsK & Hsame & _ & _ & _ & Hframe).
    intros k Hk. destruct (decide (k = kronLib)) as [->|Hne]; [|by apply Hframe].
    destruct LK as [ns0 Hns0]. rewrite HnsK, Hns0. f_equal. symmetry. by apply Hsame. }
  (* second star-import *)
  rewrite <- (Hf1 version HV) in LV.
  assert (registry w2 = registry w1) as Hr2.
  { destruct (import_star_registry _ _ _ _ H2) as [?|(ns & Hnone & _)]; [done|].
    rewrite Hnone in LV. by destruct LV. }
  assert (∀ k, k ≠ this_module → sys_modules w2 !! k = sys_modules w1 !! k) as Hf2.
  { destruct (import_star_Done _ _ _ _ _ rsplit_version HV H2)
      as (nsV & HnsV & Hsame & _ & _ & _ & Hframe).
    intros k Hk. destruct (decide (k = version)) as [->|Hne]; [|by apply Hframe].
    destruct LV as [ns0 Hns0]. rewrite HnsV, Hns0. f_equal. symmetry. by apply Hsame. }
  (* the framework *)
  rewrite <- Hf1, <- Hf2 in L1 by names_differ.
  rewrite <- Hf1, <- Hf2 in L2 by names_differ.
  rewrite <- Hf1, <- Hf2 in L3 by names_differ.
  rewrite (import_lsst_meas_base_of_loaded _ _ L1 L2 L3) in H3. injection H3 as <-.
  apply register_KronFlux_Done in H4
    as (f & alg & ctl & res & _ & _ & _ & Hinv & Hm4 & _).
  apply del_name_Done in H5 as [_ ->]. cbn [registry sys_modules] in *.
  split.
  - exists f, alg, ctl, res. by rewrite Hr2, Hr1 in Hinv.
  - intros k Hk. rewrite lookup_insert_ne, Hm4, lookup_insert_ne by done.
    by rewrite Hf2, Hf1.
Qed.

(** ** Failures of the call statement and of the first import *)

(** X5.  No cleanup on failure.  When the imports complete and the run
    then fails, [del lsst] has not run: the module table is as the imports
    left it, [lsst] is still bound to the top-level package, and the log
    ends with the imports or with the rejected call. *)
Theorem failed_run_keeps_lsst env w w3 e w' :
  exec_block (import_statements env) w = Done tt w3 →
  exec_block (module_body env) w = Raised e w' →
  sys_modules w' = sys_modules w3 ∧
  globals w' !! "lsst" = Some (VModule "lsst") ∧
  (trace w' = trace w3 ∨
   ∃ f alg ctl, trace w' = trace w3 ++ [EvCall f [alg] (registration_kwargs ctl)]).
Proof.
  intros Himp H.
  destruct (import_statements_summary _ _ _ Himp) as (_ & _ & _ & _ & _ & _ & Hl & _).
  rewrite module_body_split, (exec_block_app _ _ _ _ Himp) in H. simpl in H.
  apply bind_Raised in H as [H|([] & w4 & H4 & H)].
  - apply register_KronFlux_Raised in H
      as [[-> _]|(f & alg & ctl & r & _ & _ & _ & _ & ->)].
    + split; [done|]. split; [done|]. by left.
    + split; [done|]. split; [done|]. right. by exists f, alg, ctl.
  - apply bind_Raised in H as [H|([] & w5 & _ & H)]; [|done].
    apply del_name_Raised in H as (_ & _ & Hnone).
    apply register_KronFlux_Done in H4 as (_ & _ & _ & _ & _ & _ & _ & _ & Hm & _).
    unfold globals in Hl, Hnone. rewrite Hm in Hnone. congruence.
Qed.

Lemma lookup_this_module p attr :
  sys_modules p !! this_module ≫= (.!! attr) = globals p !! attr.
Proof. unfold globals. by destruct (sys_modules p !! this_module). Qed.

(** X6.  A framework without the entry point.  When the imports complete,
    [lsst.meas.base] resolves through the attributes of its parents, and
    its namespace has no [wrapSimpleAlgorithm], the run raises an
    AttributeError for that name in the state the imports left, whether or
    not the two class names are bound. *)
Theorem missing_entry_point_is_attribute_error env w w3 ns :
  exec_block (import_statements env) w = Done tt w3 →
  sys_modules w3 !! "lsst" ≫= (.!! "meas") = Some (VModule "lsst.meas") →
  sys_modules w3 !! "lsst.meas" ≫= (.!! "base") = Some (VModule "lsst.meas.base") →
  sys_modules w3 !! "lsst.meas.base" = Some ns →
  ns !! "wrapSimpleAlgorithm" = None →
  exec_block (module_body env) w =
    Raised (AttributeError "lsst.meas.base" "wrapSimpleAlgorithm") w3.
Proof.
  intros Himp Hmeas Hbase Hns Hnone.
  destruct (import_statements_summary _ _ _ Himp) as (_ & _ & _ & _ & _ & _ & Hl & _).
  rewrite module_body_split.
  apply (exec_block_Raised_at (import_statements env) _ _ w w3); [done|].
  apply register_KronFlux_Raised. left. split; [done|]. left.
  unfold wrapSimpleAlgorithm.
  apply bind_Raised. right. exists (VModule "lsst"), w3.
  split; [unfold load_name; by rewrite Hl|].
  apply bind_Raised. right. exists (VModule "lsst.meas"), w3.
  split; [unfold getattr; by rewrite Hmeas|].
  apply bind_Raised. right. exists (VModule "lsst.meas.base"), w3.
  split; [unfold getattr; by rewrite Hbase|].
  unfold getattr. rewrite Hns. simpl. by rewrite Hnone.
Qed.

(** X7.  Which name the NameError reports.  With the imports complete and
    the callee resolved, the positional argument is evaluated before the
    keyword arguments: if KronFluxAlgorithm is unbound the error names it,
    whatever KronFluxControl is; if only KronFluxControl is unbound the
    error names that.  In both cases the state is the one the imports
    left. *)
Theorem unbound_class_names_in_order env w w3 f :
  exec_block (import_statements env) w = Done tt w3 →
  wrapSimpleAlgorithm env w3 = Done f w3 →
  builtins env !! "KronFluxAlgorithm" = None →
  builtins env !! "KronFluxControl" = None →
  (globals w3 !! "KronFluxAlgorithm" = None →
   exec_block (module_body env) w = Raised (NameError "KronFluxAlgorithm") w3) ∧
  (is_Some (globals w3 !! "KronFluxAlgorithm") →
   globals w3 !! "KronFluxControl" = None →
   exec_block (module_body env) w = Raised (NameError "KronFluxControl") w3).
Proof.
  intros Himp Hf Hba Hbc. rewrite module_body_split. split.
  - intros Ha.
    apply (exec_block_Raised_at (import_statements env) _ _ w w3); [done|].
    apply register_KronFlux_Raised. left. split; [done|]. right.
    exists f. split; [done|]. left. by apply load_name_unbound.
  - intros [alg Ha] Hc.
    apply (exec_block_Raised_at (import_statements env) _ _ w w3); [done|].
    apply register_KronFlux_Raised. left. split; [done|]. right.
    exists f. split; [done|]. right. exists alg. split.
    + unfold load_name. by rewrite Ha.
    + by apply load_name_unbound.
Qed.

(** X8.  An [__all__] that promises too much.  If, in the list that the
    first star-import reads from [__all__], the names before some name are
    all defined by kronLib and that name is not, the run raises an
    AttributeError for exactly that name, the first undefined one.
    Nothing has been logged, the registry is as loading kronLib left it,
    and the names listed before it are already bound in the package. *)
Theorem undefined_name_in_all_fails env w w1 ns before n0 after :
  import_module env kronLib w = Done tt w1 →
  sys_modules w1 !! kronLib = Some ns →
  ns !! "__all__" = Some (VNames (before ++ n0 :: after)) →
  (∀ m, m ∈ before → is_Some (ns !! m)) →
  ns !! n0 = None →
  ∃ w',
    exec_block (module_body env) w = Raised (AttributeError kronLib n0) w' ∧
    trace w' = trace w ∧ registry w' = registry w1 ∧
    (∀ k, k ≠ this_module → sys_modules w' !! k = sys_modules w1 !! k) ∧
    ∀ m, m ∈ before → globals w' !! m = ns !! m.
Proof.
  intros Himp Hns Hall Hbefore Hmiss.
  destruct (bind_names_first_missing kronLib ns before n0 after w1 Hbefore Hmiss)
    as (w' & Hr & Ht & Hreg & Hframe & Hbound).
  exists w'. split; [|split; [|split; [done|split; [done|done]]]].
  - apply (exec_block_Raised_at [] _ _ w w); [done|].
    unfold import_star. apply bind_Raised. right. exists tt, w1. split; [done|].
    rewrite Hns. unfold star_names. rewrite Hall.
    apply bind_Raised. by left.
  - rewrite Ht. by apply import_module_Done in Himp as [? _].
Qed.

(** ** Running the body again *)

Lemma getattr_same env attr v p q x :
  same_for_call p q → attr ≠ "kronLib" → attr ≠ "version" →
  getattr env attr v p = Done x p → getattr env attr v q = Done x q.
Proof.
  intros [Hm Hg] Hk Hv. unfold getattr. destruct v; try done.
  - destruct (decide (name = this_module)) as [->|Hne].
    + rewrite !lookup_this_module, (Hg attr) by done.
      destruct (globals q !! attr); [|done]. by intros [= ->].
    + rewrite (Hm name) by done.
      destruct (sys_modules q !! name ≫= _); [|done]. by intros [= ->].
  - destruct (object_attr env id attr); [|done]. by intros [= ->].
Qed.

Lemma load_name_same env n p q v :
  same_for_call p q → n ≠ "kronLib" → n ≠ "version" →
  load_name env n p = Done v p → load_name env n q = Done v q.
Proof.
  intros [_ Hg] Hk Hv. unfold load_name. rewrite (Hg n) by done.
  destruct (globals q !! n); [by intros [= ->]|].
  destruct (builtins env !! n); [|done]. by intros [= ->].
Qed.

Lemma wrapSimpleAlgorithm_same env p q f :
  same_for_call p q →
  wrapSimpleAlgorithm env p = Done f p → wrapSimpleAlgorithm env q = Done f q.
Proof.
  intros Hsame H. unfold wrapSimpleAlgorithm in *.
  apply bind_Done in H as (m0 & p0 & H0 & H).
  pose proof (load_name_Done _ _ _ _ _ H0) as [-> _].
  apply bind_Done in H as (m1 & p1 & H1 & H).
  pose proof (getattr_Done _ _ _ _ _ _ H1) as ->.
  apply bind_Done in H as (m2 & p2 & H2 & H).
  pose proof (getattr_Done _ _ _ _ _ _ H2) as ->.
  apply bind_Done. exists m0, q.
  split; [apply (load_name_same env _ p); [done|names_differ..|done]|].
  apply bind_Done. exists m1, q.
  split; [apply (getattr_same env _ _ p); [done|names_differ..|done]|].
  apply bind_Done. exists m2, q.
  split; [apply (getattr_same env _ _ p); [done|names_differ..|done]|].
  apply (getattr_same env _ _ p); [done|names_differ..|done].
Qed.

(** X9.  No guard against registering twice.  Running the body again in
    the state a completed run left executes no module and makes the same
    call once more (same callee, same algorithm and control, same
    keywords) on the registry the first run left.  What happens is the
    host's decision: if it accepts, the second run completes with the
    registry the host returns; if it raises, the second run ends with that
    exception right after the call. *)
Theorem rerun_repeats_registration env w w' :
  exec_block (module_body env) w = Done tt w' →
  ∃ f alg ctl evs,
    trace w' = trace w ++ evs ∧
    calls evs = [EvCall f [alg] (registration_kwargs ctl)] ∧
    (∀ res r,
       invoke env f [alg] (registration_kwargs ctl) (registry w') = (inr res, r) →
       ∃ w'', exec_block (module_body env) w' = Done tt w'' ∧
              registry w'' = r ∧
              trace w'' = trace w' ++ full_trace f alg ctl) ∧
    (∀ e r,
       invoke env f [alg] (registration_kwargs ctl) (registry w') = (inl e, r) →
       ∃ w'', exec_block (module_body env) w' = Raised e w'' ∧
              registry w'' = r ∧
              trace w'' = trace w' ++ take 4 (full_trace f alg ctl)).
Proof.
  intros H. pose proof H as Hsum. apply module_body_summary in Hsum
    as (w3 & f & alg & ctl & res0 & Himp & Hf & Ha & Hc & _ & _ & Hm & Ht).
  destruct (import_statements_summary _ _ _ Himp)
    as (nsK & nsV & HK3 & HV3 & (L1 & L2 & L3) & Ht3 & Hlsst & Hglob & _).
  destruct (import_statements_names _ _ _ Himp)
    as (nsK' & namesK & nsV' & namesV & HK3' & HsK & HallK & HV3' & HsV & HallV).
  assert (nsK' = nsK) as -> by congruence.
  assert (nsV' = nsV) as -> by congruence.
  assert (∀ k, k ≠ this_module → sys_modules w' !! k = sys_modules w3 !! k) as Hframe
    by (intros k; apply (final_modules_frame _ _ _ _ Hm)).
  pose proof (final_globals _ _ _ Hm) as Hg'.
  (* the second run's imports *)
  assert (sys_modules w' !! kronLib = Some nsK) as HK'
    by (rewrite Hframe; [done|names_differ]).
  destruct (import_star_of_loaded env kronLib nsK namesK w' HK' HsK HallK)
    as (w1 & H1 & Hr1 & Ht1 & Hf1 & Hg1).
  assert (sys_modules w1 !! version = Some nsV) as HV1
    by (rewrite Hf1, Hframe; [done|names_differ..]).
  destruct (import_star_of_loaded env version nsV namesV w1 HV1 HsV HallV)
    as (w2 & H2 & Hr2 & Ht2 & Hf2 & Hg2).
  assert (∀ k, k ≠ this_module → sys_modules w2 !! k = sys_modules w3 !! k) as Hfr
    by (intros k Hk; by rewrite Hf2, Hf1, Hframe).
  pose proof (import_lsst_meas_base_of_loaded env w2) as H3.
  rewrite !Hfr in H3 by names_differ. specialize (H3 L1 L2 L3).
  set (w3' := Process (<[this_module := <["lsst" := VModule "lsst"]> (globals w2)]>
                         (sys_modules w2))
                      (registry w2) (trace w2 ++ [EvImport "lsst.meas.base"])) in *.
  assert (exec_block (import_statements env) w' = Done tt w3') as Himp'
    by (apply import_statements_Done; eauto).
  assert (globals w3' = <["lsst" := VModule "lsst"]> (globals w2)) as Hg3'
    by (unfold globals at 1, w3'; cbn [sys_modules]; by rewrite lookup_insert_eq).
  assert (same_for_call w3 w3') as Hsame.
  { split.
    - intros k Hk. unfold w3'; cbn [sys_modules].
      rewrite lookup_insert_ne by done. by rewrite Hfr.
    - intros n Hnk Hnv. rewrite Hg3'.
      destruct (decide (n = "lsst")) as [->|Hnl]; [by rewrite lookup_insert_eq|].
      rewrite lookup_insert_ne, Hg2, Hg1, Hg', lookup_delete_ne, Hglob by done.
      by destruct (exported nsV n), (exported nsK n). }
  assert (registry w3' = registry w') as Hr3' by (unfold w3'; cbn; congruence).
  assert (trace w3' = trace w' ++ take 3 (full_trace f alg ctl)) as Ht3'
    by (unfold w3'; cbn [trace]; rewrite Ht2, Ht1, <- !app_assoc; reflexivity).
  pose proof (wrapSimpleAlgorithm_same _ _ _ _ Hsame Hf) as Hf'.
  assert (load_name env "KronFluxAlgorithm" w3' = Done alg w3') as Ha'
    by (apply (load_name_same env _ w3); [done|names_differ..|done]).
  assert (load_name env "KronFluxControl" w3' = Done ctl w3') as Hc'
    by (apply (load_name_same env _ w3); [done|names_differ..|done]).
  (* the first run's log *)
  eexists f, alg, ctl, _. split; [|split; [|split]].
  - rewrite Ht, Ht3, <- app_assoc. reflexivity.
  - reflexivity.
  - intros res r Hinv. rewrite <- Hr3' in Hinv.
    exists (Process (<[this_module := delete "lsst" (globals w3')]> (sys_modules w3')) r
              (trace w3' ++ [EvCall f [alg] (registration_kwargs ctl); EvDel "lsst"])).
    split; [|split; [done|]].
    + apply module_body_summary. exists w3', f, alg, ctl, res.
      do 5 (split; [done|]). split; [|done].
      rewrite Hg3', lookup_insert_eq. eauto.
    + cbn [trace]. rewrite Ht3', <- app_assoc. reflexivity.
  - intros e r Hinv. rewrite <- Hr3' in Hinv.
    exists (Process (sys_modules w3') r
              (trace w3' ++ [EvCall f [alg] (registration_kwargs ctl)])).
    split; [|split; [done|]].
    + rewrite module_body_split.
      apply (exec_block_Raised_at (import_statements env) _ _ w' w3'); [done|].
      apply register_KronFlux_Raised. right. exists f, alg, ctl, r. by repeat split.
    + cbn [trace]. rewrite Ht3', <- app_assoc. reflexivity.
Qed.

(** ** The submodules as attributes of the package *)




(** ** The further properties on concrete installations *)


Lemma preloaded_import_only_registers_witness :
  (∃ f alg ctl res,
     invoke replacing_env f [alg] (registration_kwargs ctl) (registry replacing_final)
       = (inr res, registry replacing_final_again)) ∧
  ∀ k, k ≠ this_module →
       sys_modules replacing_final_again !! k = sys_modules replacing_final !! k.
Proof.
  apply (preloaded_import_only_registers replacing_env replacing_final
           replacing_final_again);
    first [vm_compute; reflexivity | vm_compute; eexists; reflexivity].
Defined.

Lemma failed_run_keeps_lsst_witness :
  sys_modules (final_state (exec_block (module_body reference_env) registered_process))
    = sys_modules registered_imported ∧
  globals (final_state (exec_block (module_body reference_env) registered_process))
    !! "lsst" = Some (VModule "lsst") ∧
  (trace (final_state (exec_block (module_body reference_env) registered_process))
     = trace registered_imported ∨
   ∃ f alg ctl,
     trace (final_state (exec_block (module_body reference_env) registered_process))
       = trace registered_imported ++ [EvCall f [alg] (registration_kwargs ctl)]).
Proof.
  apply (failed_run_keeps_lsst reference_env registered_process registered_imported
           (HostError "duplicate name"));
    vm_compute; reflexivity.
Defined.

Lemma missing_entry_point_is_attribute_error_witness :
  exec_block (module_body no_entry_point_env) reference_process =
    Raised (AttributeError "lsst.meas.base" "wrapSimpleAlgorithm") no_entry_point_imported.
Proof.
  apply (missing_entry_point_is_attribute_error no_entry_point_env reference_process
           no_entry_point_imported ∅);
    vm_compute; reflexivity.
Defined.

Lemma unbound_class_names_in_order_witness :
  exec_block (module_body empty_kronLib_env) reference_process =
    Raised (NameError "KronFluxAlgorithm") empty_kronLib_imported ∧
  exec_block (module_body incomplete_kronLib_env) reference_process =
    Raised (NameError "KronFluxControl")
      (final_state (exec_block (import_statements incomplete_kronLib_env)
                      reference_process)).
Proof.
  split.
  - apply (proj1 (unbound_class_names_in_order empty_kronLib_env reference_process
                    empty_kronLib_imported
                    (VObject "lsst.meas.base.wrapSimpleAlgorithm")
                    ltac:(vm_compute; reflexivity) ltac:(vm_compute; reflexivity)
                    ltac:(vm_compute; reflexivity) ltac:(vm_compute; reflexivity))).
    vm_compute; reflexivity.
  - apply (proj2 (unbound_class_names_in_order incomplete_kronLib_env reference_process
                    (final_state (exec_block (import_statements incomplete_kronLib_env)
                                    reference_process))
                    (VObject "lsst.meas.base.wrapSimpleAlgorithm")
                    ltac:(vm_compute; reflexivity) ltac:(vm_compute; reflexivity)
                    ltac:(vm_compute; reflexivity) ltac:(vm_compute; reflexivity)));
      first [vm_compute; reflexivity | vm_compute; eexists; reflexivity].
Defined.

Lemma undefined_name_in_all_fails_witness :
  ∃ w',
    exec_block (module_body bad_all_env) reference_process
      = Raised (AttributeError kronLib "KronAperture") w' ∧
    trace w' = trace reference_process ∧ registry w' = registry bad_all_loaded ∧
    (∀ k, k ≠ this_module → sys_modules w' !! k = sys_modules bad_all_loaded !! k) ∧
    ∀ m, m ∈ ["KronFluxAlgorithm"] → globals w' !! m = bad_all_namespace !! m.
Proof.
  apply (undefined_name_in_all_fails bad_all_env reference_process bad_all_loaded
           bad_all_namespace ["KronFluxAlgorithm"] "KronAperture" ["KronFluxControl"]).
  - vm_compute; reflexivity.
  - vm_compute; reflexivity.
  - vm_compute; reflexivity.
  - intros m Hm. apply list_elem_of_singleton in Hm as ->. vm_compute. eexists; reflexivity.
  - vm_compute; reflexivity.
Defined.

Lemma rerun_repeats_registration_witness :
  ∃ f alg ctl evs,
    trace reference_final = trace reference_process ++ evs ∧
    calls evs = [EvCall f [alg] (registration_kwargs ctl)] ∧
    (∀ res r,
       invoke reference_env f [alg] (registration_kwargs ctl) (registry reference_final)
         = (inr res, r) →
       ∃ w'', exec_block (module_body reference_env) reference_final = Done tt w'' ∧
              registry w'' = r ∧
              trace w'' = trace reference_final ++ full_trace f alg ctl) ∧
    (∀ e r,
       invoke reference_env f [alg] (registration_kwargs ctl) (registry reference_final)
         = (inl e, r) →
       ∃ w'', exec_block (module_body reference_env) reference_final = Raised e w'' ∧
              registry w'' = r ∧
              trace w'' = trace reference_final ++ take 4 (full_trace f alg ctl)).
Proof.
  apply (rerun_repeats_registration reference_env reference_process reference_final).
  vm_compute; reflexivity.
Defined.

